(** * Warranty forecasting app: lifetime dataset builder and cohort forecast

    A shallow embedding of [app.py]: the construction of the per-unit
    lifetime dataset from the sales and returns tables (lines 26-73), the
    per-cohort failure forecast (lines 106-131), its aggregation by calendar
    month (line 144) and the rows that the report prints (line 170).

    Conventions of the embedding.
    - A pandas timestamp is a calendar date or [NaT]; the date columns of
      the CSV files are modelled at day resolution.
    - The integer columns ([quantity_in_service], [quantity_returned]) hold
      64-bit integers, written as [Z]; the sum of a column wraps around as
      the 64-bit sum of pandas does.
    - A timestamp lies between 1677-09-22 and 2262-04-11, the dates that a
      nanosecond timestamp can hold; an offset that leaves them raises. The
      two dates of a record are taken to be less than 106752 days apart, so
      that their difference at line 72 is a time difference of pandas.
    - Floating-point values (the fitted parameters, the probabilities and
      the expected failures) are modelled as real numbers.
    - A Python exception is a value of [outcome]. *)

From Stdlib Require Import String.
From Stdlib Require Import ZArith List Bool FinFun Lia.
From Stdlib Require Import Permutation Sorted.
From Stdlib Require Import Reals Lra.
Import ListNotations.

Open Scope Z_scope.

(** ** Python results *)

Inductive exn : Type :=
| KeyError (key : string)
| OutOfBoundsDatetime.

Inductive outcome (A : Type) : Type :=
| Returned (a : A)
| Raised (e : exn).

Arguments Returned {A} a.
Arguments Raised {A} e.

Definition bind {A B : Type} (c : outcome A) (k : A -> outcome B) : outcome B :=
  match c with
  | Returned a => k a
  | Raised e => Raised e
  end.

Notation "'do' x <- c ; k" := (bind c (fun x => k))
  (at level 10, x name, c at level 100, k at level 200).

(** [range(lo, hi)] of Python: empty when [hi <= lo]. *)
Definition range (lo hi : Z) : list Z :=
  map (fun i => lo + Z.of_nat i) (seq 0 (Z.to_nat (hi - lo))).

(** A [for] loop whose body may raise: the state after the last element,
    or the first error. *)
Fixpoint for_each {A S : Type} (body : S -> A -> outcome S) (l : list A)
    (s : S) : outcome S :=
  match l with
  | [] => Returned s
  | x :: rest => do s' <- body s x; for_each body rest s'
  end.

(** Exact sum of a list of integers. *)
Definition sum (l : list Z) : Z := fold_right Z.add 0 l.

(** Bounds of a 64-bit signed integer. *)
Definition int64_min : Z := -9223372036854775808.
Definition int64_max : Z := 9223372036854775807.

(** The 64-bit signed integer that a result is stored as: two's complement
    wrap-around. *)
Definition wrap64 (z : Z) : Z :=
  (z + 9223372036854775808) mod 18446744073709551616 - 9223372036854775808.

(** ** Timestamps *)

Module Timestamp.

Record date : Type := mkDate { year : Z; month : Z; day : Z }.

(** A cell of a datetime column; [None] is [NaT]. *)
Definition t : Type := option date.

Definition NaT : t := None.

Definition date_eqb (a b : date) : bool :=
  (year a =? year b) && (month a =? month b) && (day a =? day b).

(** Chronological order of two dates, the order in which a group-by sorts
    its keys. *)
Definition date_ltb (a b : date) : bool :=
  (year a <? year b)
  || ((year a =? year b)
      && ((month a <? month b)
          || ((month a =? month b) && (day a <? day b)))).

(** The elementwise [==] of pandas: [NaT] is equal to nothing. *)
Definition eqb (a b : t) : bool :=
  match a, b with
  | Some x, Some y => date_eqb x y
  | _, _ => false
  end.

Definition is_leap_year (y : Z) : bool :=
  (y mod 4 =? 0) && (negb (y mod 100 =? 0) || (y mod 400 =? 0)).

Definition days_in_month (y m : Z) : Z :=
  if m =? 2 then (if is_leap_year y then 29 else 28)
  else if (m =? 4) || (m =? 6) || (m =? 9) || (m =? 11) then 30
  else 31.

(** Day number of a civil date, counted from 1970-01-01. *)
Definition to_days (d : date) : Z :=
  let y := if month d <=? 2 then year d - 1 else year d in
  let era := y / 400 in
  let yoe := y - era * 400 in
  let mp := if month d <=? 2 then month d + 9 else month d - 3 in
  let doy := (153 * mp + 2) / 5 + day d - 1 in
  let doe := yoe * 365 + yoe / 4 - yoe / 100 + doy in
  era * 146097 + doe - 719468.

(** [(a - b).days]; [None] is the missing value of the result. *)
Definition sub_days (a b : t) : option Z :=
  match a, b with
  | Some x, Some y => Some (to_days x - to_days y)
  | _, _ => None
  end.

(** The calendar date [months] months after [d]: the month is shifted and
    the day is clipped to the length of the target month. *)
Definition shift_month (d : date) (months : Z) : date :=
  let dy := (month d + months) / 12 in
  let mo := (month d + months) mod 12 in
  let mo' := if mo =? 0 then 12 else mo in
  let dy' := if mo =? 0 then dy - 1 else dy in
  let y := year d + dy' in
  mkDate y mo' (Z.min (day d) (days_in_month y mo')).

(** The value of [stamp + pd.DateOffset(months=n)] where that is a
    timestamp; [NaT] stays [NaT]. *)
Definition add_months (s : t) (months : Z) : t :=
  match s with
  | Some d => Some (shift_month d months)
  | None => None
  end.

(** Day numbers of 1677-09-22 and 2262-04-11, the first and the last date
    that a timestamp counted in nanoseconds can hold. *)
Definition min_day : Z := -106751.
Definition max_day : Z := 106751.

Definition in_bounds (d : date) : bool :=
  (min_day <=? to_days d) && (to_days d <=? max_day).

(** [stamp + pd.DateOffset(months=n)]: the shifted date, or the error of
    pandas when the shifted date is not a timestamp. *)
Definition add_offset (s : t) (months : Z) : outcome t :=
  match s with
  | Some d =>
      if in_bounds (shift_month d months)
      then Returned (Some (shift_month d months))
      else Raised OutOfBoundsDatetime
  | None => Returned None
  end.

(** Position of a date's month on the calendar. *)
Definition month_index (d : date) : Z := 12 * year d + month d.

End Timestamp.

(** ** Input tables *)

(** A row of the sales table. *)
Record sales_row : Type := mkSales {
  s_date_in_service : Timestamp.t;
  quantity_in_service : Z
}.

(** A row of the returns table. *)
Record returns_row : Type := mkReturn {
  r_date_in_service : Timestamp.t;
  date_of_return : Timestamp.t;
  quantity_returned : Z
}.

(** ** Lifetime dataset *)

(** The dictionaries appended to [failure_records] and [censored_records]. *)
Record record : Type := mkRecord {
  in_service : Timestamp.t;
  event_date : Timestamp.t;
  event_observed : Z
}.

(** A row of [lifetime_df] once the [duration] column exists. *)
Record lifetime_row : Type := mkLifetime {
  l_in_service : Timestamp.t;
  l_event_date : Timestamp.t;
  l_event_observed : Z;
  duration : option Z
}.

Definition failure_record (row : returns_row) : record :=
  mkRecord (r_date_in_service row) (date_of_return row) 1.

(** Lines 27-34: one record per returned unit. *)
Definition failure_records (returns_data : list returns_row) : list record :=
  fold_left
    (fun acc row =>
       fold_left (fun acc' _ => acc' ++ [failure_record row])
                 (range 0 (quantity_returned row)) acc)
    returns_data [].

(** Line 38. *)
Definition cutoff_date : Timestamp.t := Some (Timestamp.mkDate 2011 9 1).

(** The units returned for in-service date [d], counted exactly. *)
Definition returned_units (returns_data : list returns_row) (d : Timestamp.t)
    : Z :=
  sum (map quantity_returned
           (filter (fun r => Timestamp.eqb (r_date_in_service r) d)
                   returns_data)).

(** Line 43: the [.sum()] of the quantities of the returns whose in-service
    date equals the cohort's, a 64-bit sum. *)
Definition total_returned (returns_data : list returns_row) (d : Timestamp.t) : Z :=
  wrap64 (sum (map quantity_returned
                   (filter (fun r => Timestamp.eqb (r_date_in_service r) d)
                           returns_data))).

(** Line 44. The difference is the exact one; it is what the code computes
    whenever it fits 64 bits. *)
Definition num_censored (returns_data : list returns_row) (row : sales_row) : Z :=
  quantity_in_service row - total_returned returns_data (s_date_in_service row).

Definition censored_record (row : sales_row) : record :=
  mkRecord (s_date_in_service row) cutoff_date 0.

(** Lines 41-50. *)
Definition censored_records (sales_data : list sales_row)
    (returns_data : list returns_row) : list record :=
  fold_left
    (fun acc row =>
       fold_left (fun acc' _ => acc' ++ [censored_record row])
                 (range 0 (num_censored returns_data row)) acc)
    sales_data [].

(** Line 54: [pd.concat([failures_df, censored_df])]. *)
Definition lifetime_concat (sales_data : list sales_row)
    (returns_data : list returns_row) : list record :=
  failure_records returns_data ++ censored_records sales_data returns_data.

(** A frame built from no record has no column. *)
Definition columns (df : list record) : list string :=
  match df with
  | [] => []
  | _ :: _ => ["in_service"; "event_date"; "event_observed"]%string
  end.

Definition has_column (df : list record) (key : string) : bool :=
  existsb (String.eqb key) (columns df).

(** Line 72. *)
Definition with_duration (r : record) : lifetime_row :=
  mkLifetime (in_service r) (event_date r) (event_observed r)
             (Timestamp.sub_days (event_date r) (in_service r)).

Definition isna {A : Type} (x : option A) : bool :=
  match x with
  | None => true
  | Some _ => false
  end.

(** Line 73: [dropna(subset=['event_date', 'duration'])]. *)
Definition dropna (df : list lifetime_row) : list lifetime_row :=
  filter (fun r => negb (isna (l_event_date r)) && negb (isna (duration r))) df.

(** Lines 26-73: the frame handed to the fit. Selecting a column of a frame
    that has none raises [KeyError]. *)
Definition lifetime_df (sales_data : list sales_row)
    (returns_data : list returns_row) : outcome (list lifetime_row) :=
  let df := lifetime_concat sales_data returns_data in
  if has_column df "event_date"
  then
    if has_column df "in_service"
    then Returned (dropna (map with_duration df))
    else Raised (KeyError "in_service")
  else Raised (KeyError "event_date").

(** *** Reference forms of the record lists *)

(** The censored records emitted for one row of the sales table. *)
Definition cohort_censored (returns_data : list returns_row) (row : sales_row)
    : list record :=
  repeat (censored_record row) (Z.to_nat (num_censored returns_data row)).

(** The failure records emitted for one row of the returns table. *)
Definition event_failures (row : returns_row) : list record :=
  repeat (failure_record row) (Z.to_nat (quantity_returned row)).

(** The specification's requirement on a builder that is given the
    censoring cutoff [cutoff]: every censored row carries it as its event
    date. *)
Definition honours_cutoff (cutoff : Timestamp.t) (rows : list lifetime_row)
    : Prop :=
  forall r, In r rows -> l_event_observed r = 0 -> l_event_date r = cutoff.





(** ** Fitted model *)

(** The state of the fitted [WeibullFitter] that the forecast reads. *)
Record WeibullFitter : Type := mkWeibull {
  rho_ : R;
  lambda_ : R
}.

(** Modelled from the spec: the cumulative hazard [(t / lambda) ^ rho] of
    the fitted Weibull model, whose implementation is the lifelines library;
    zero at time zero, the only non-positive time the forecast evaluates. *)
Definition cumulative_hazard_at_times (wf : WeibullFitter) (t : Z) : R :=
  if (0 <? t)%Z then Rpower (IZR t / lambda_ wf) (rho_ wf) else 0%R.

(** Modelled from the spec: [CDF(t) = 1 - exp(-(t / lambda) ^ rho)], the
    value of [wf.cumulative_density_at_times(t).values[0]] of lifelines. *)
Definition cumulative_density_at_times (wf : WeibullFitter) (t : Z) : R :=
  (1 - exp (- cumulative_hazard_at_times wf t))%R.

(** ** Cohort forecast *)

Record cohort_forecast : Type := mkForecast {
  cohort_in_service : Timestamp.t;
  forecast_month : Timestamp.t;
  expected_failures : R
}.

(** Lines 112-123: the body of the loop over months. Line 118 raises when
    the forecast month is not a timestamp. *)
Definition forecast_step (wf : WeibullFitter) (cohort_date : Timestamp.t)
    (units : Z) (all_forecasts : list cohort_forecast) (month : Z)
    : outcome (list cohort_forecast) :=
  let t1 := (month - 1) * 30 in
  let t2 := month * 30 in
  let p1 := cumulative_density_at_times wf t1 in
  let p2 := cumulative_density_at_times wf t2 in
  let prob := Rmax (p2 - p1) 0 in
  let expected_failures := (IZR units * prob)%R in
  do forecast_month <- Timestamp.add_offset cohort_date month;
  Returned
    (all_forecasts ++ [mkForecast cohort_date forecast_month expected_failures]).

(** Lines 109-123: the body of the loop over the rows of the table. *)
Definition forecast_row (wf : WeibullFitter) (months_ahead : Z)
    (all_forecasts : list cohort_forecast) (row : sales_row)
    : outcome (list cohort_forecast) :=
  let cohort_date := s_date_in_service row in
  let units := quantity_in_service row in
  for_each (forecast_step wf cohort_date units)
           (range 1 (months_ahead + 1)) all_forecasts.

(** Lines 106-124. *)
Definition forecast_failures_by_cohort (wf : WeibullFitter)
    (sales_df : list sales_row) (months_ahead : Z)
    : outcome (list cohort_forecast) :=
  do all_forecasts <- for_each (forecast_row wf months_ahead) sales_df [];
  Returned all_forecasts.

(** Lines 126-131; [future_sales] is [None] when no file was uploaded. *)
Definition forecast_df (wf : WeibullFitter) (sales_data : list sales_row)
    (future_sales : option (list sales_row)) (months_ahead : Z)
    : outcome (list cohort_forecast) :=
  do forecast_df <- forecast_failures_by_cohort wf sales_data months_ahead;
  match future_sales with
  | Some future_sales =>
      do future_forecast_df <-
         forecast_failures_by_cohort wf future_sales months_ahead;
      Returned (forecast_df ++ future_forecast_df)
  | None => Returned forecast_df
  end.

(** *** Reference forms of the forecast *)

(** The record the specification prescribes for cohort [row] and month
    index [m]. *)
Definition spec_forecast (wf : WeibullFitter) (row : sales_row) (m : Z)
    : cohort_forecast :=
  mkForecast
    (s_date_in_service row)
    (Timestamp.add_months (s_date_in_service row) m)
    (IZR (quantity_in_service row)
     * Rmax (cumulative_density_at_times wf (m * 30)
             - cumulative_density_at_times wf ((m - 1) * 30)) 0)%R.

(** The records of one cohort, month after month. *)
Definition cohort_forecasts (wf : WeibullFitter) (months_ahead : Z)
    (row : sales_row) : list cohort_forecast :=
  map (spec_forecast wf row) (range 1 (months_ahead + 1)).

(** The forecast month of cohort date [cohort_date] and month index [m] is
    a timestamp. *)
Definition month_in_bounds (cohort_date : Timestamp.t) (m : Z) : bool :=
  match cohort_date with
  | Some d => Timestamp.in_bounds (Timestamp.shift_month d m)
  | None => true
  end.

(** All the forecast months of a table over a horizon are timestamps. *)
Definition months_in_bounds (sales_df : list sales_row) (months_ahead : Z)
    : bool :=
  forallb
    (fun row =>
       forallb (month_in_bounds (s_date_in_service row))
               (range 1 (months_ahead + 1)))
    sales_df.

(** Total of a column of reals. *)
Definition total (l : list R) : R := fold_right Rplus 0%R l.

(** The specification's forecast over a historical and a future table, each
    with a horizon of its own. *)
Definition spec_forecast_with_future (wf : WeibullFitter)
    (sales_data future_sales : list sales_row)
    (horizon future_horizon : Z) : outcome (list cohort_forecast) :=
  do hist <- forecast_failures_by_cohort wf sales_data horizon;
  do fut <- forecast_failures_by_cohort wf future_sales future_horizon;
  Returned (hist ++ fut).

(** ** Calendar aggregation and report *)

(** A row of [monthly_forecast]. *)
Record monthly_row : Type := mkMonthly {
  m_forecast_month : Timestamp.date;
  m_expected_failures : R
}.

(** One step of the group-by: the value joins the group of its key, and a
    new key takes its place in the chronological order of the keys. *)
Fixpoint add_to_group (k : Timestamp.date) (v : R) (groups : list monthly_row)
    : list monthly_row :=
  match groups with
  | [] => [mkMonthly k v]
  | g :: rest =>
      if Timestamp.date_eqb k (m_forecast_month g)
      then mkMonthly (m_forecast_month g) (m_expected_failures g + v)%R :: rest
      else if Timestamp.date_ltb k (m_forecast_month g)
           then mkMonthly k v :: g :: rest
           else g :: add_to_group k v rest
  end.

(** [groupby("forecast_month")["expected_failures"].sum().reset_index()]:
    rows whose key is [NaT] belong to no group. *)
Definition groupby_sum (df : list cohort_forecast) : list monthly_row :=
  fold_left
    (fun groups f =>
       match forecast_month f with
       | Some k => add_to_group k (expected_failures f) groups
       | None => groups
       end)
    df [].

(** Line 144. The frame of an empty forecast has no column to group by. *)
Definition monthly_forecast (forecast_df : list cohort_forecast)
    : outcome (list monthly_row) :=
  match forecast_df with
  | [] => Raised (KeyError "forecast_month")
  | _ :: _ => Returned (groupby_sum forecast_df)
  end.

(** Lines 126-144: from the tables to the calendar forecast. *)
Definition calendar_forecast (wf : WeibullFitter)
    (sales_data : list sales_row) (future_sales : option (list sales_row))
    (months_ahead : Z) : outcome (list monthly_row) :=
  do forecast_df <- forecast_df wf sales_data future_sales months_ahead;
  monthly_forecast forecast_df.

(** Line 170: the rows of the forecast that the report prints,
    [forecast_df.head(10)]. *)
Definition report_rows (forecast_df : list cohort_forecast)
    : list cohort_forecast :=
  firstn 10 forecast_df.

(** Expected failures recorded for calendar month [k]. *)
Definition month_total (k : Timestamp.date) (df : list cohort_forecast) : R :=
  total (map expected_failures
             (filter (fun f => Timestamp.eqb (forecast_month f) (Some k)) df)).

(** The rows of a forecast that carry a forecast month. *)
Definition dated (df : list cohort_forecast) : list cohort_forecast :=
  filter (fun f => negb (isna (forecast_month f))) df.

(** The value a group-by result holds for key [k], zero when absent. *)
Definition group_value (k : Timestamp.date) (groups : list monthly_row) : R :=
  total (map m_expected_failures
             (filter (fun g => Timestamp.date_eqb (m_forecast_month g) k)
                     groups)).

(** The months of a group-by result come in chronological order, each
    once. *)
Definition months_increasing (groups : list monthly_row) : Prop :=
  StronglySorted
    (fun a b => Timestamp.date_ltb (m_forecast_month a) (m_forecast_month b)
                = true)
    groups.

(** ** Sample inputs *)

Definition dec_2010 : Timestamp.t := Some (Timestamp.mkDate 2010 12 15).
Definition jan_2011 : Timestamp.t := Some (Timestamp.mkDate 2011 1 1).
Definition feb_2011 : Timestamp.t := Some (Timestamp.mkDate 2011 2 1).
Definition mar_2011 : Timestamp.t := Some (Timestamp.mkDate 2011 3 1).
Definition jan_2012 : Timestamp.t := Some (Timestamp.mkDate 2012 1 1).
Definition jan_2021 : Timestamp.t := Some (Timestamp.mkDate 2021 1 1).

(** One unit installed, three returned. *)
Definition lone_unit : sales_row := mkSales jan_2011 1.
Definition excess_returns : list returns_row := [mkReturn jan_2011 feb_2011 3].

(** A cohort installed after the cutoff date. *)
Definition late_cohort : sales_row := mkSales jan_2012 1.

(** Two cohorts with consistent returns, and one return of an installation
    date that the sales table does not list. *)
Definition two_cohorts : list sales_row :=
  [mkSales jan_2011 5; mkSales feb_2011 2].
Definition stray_return : returns_row := mkReturn dec_2010 feb_2011 2.
Definition some_returns : list returns_row :=
  [mkReturn jan_2011 feb_2011 2; stray_return; mkReturn jan_2011 mar_2011 1].

(** A cohort installed in the last months that a timestamp can hold. *)
Definition jan_2262 : Timestamp.t := Some (Timestamp.mkDate 2262 1 1).
Definition last_cohort : sales_row := mkSales jan_2262 1.

(** Two returns with negative quantities whose 64-bit sum wraps around. *)
Definition wrapping_returns : list returns_row :=
  [mkReturn jan_2011 feb_2011 int64_min; mkReturn jan_2011 mar_2011 (-1)].

(** A return whose in-service date is missing. *)
Definition undated_stray_return : returns_row :=
  mkReturn Timestamp.NaT feb_2011 2.

(** A cohort with a negative unit count. *)
Definition negative_cohort : sales_row := mkSales jan_2011 (-5).

(** An exponential lifetime: shape 1, scale 1. *)
Definition wf_unit : WeibullFitter := mkWeibull 1 1.

(** * Properties *)

(** ** Checks on sample inputs *)

Example epoch_day : Timestamp.to_days (Timestamp.mkDate 1970 1 1) = 0.
Proof. reflexivity. Qed.

Example leap_day :
  Timestamp.sub_days (Some (Timestamp.mkDate 2000 3 1))
                     (Some (Timestamp.mkDate 2000 2 28)) = Some 2.
Proof. reflexivity. Qed.

Example month_end_is_clipped :
  Timestamp.shift_month (Timestamp.mkDate 2020 1 31) 1
  = Timestamp.mkDate 2020 2 29.
Proof. reflexivity. Qed.

Example december_rolls_over :
  Timestamp.shift_month (Timestamp.mkDate 2020 12 30) 12
  = Timestamp.mkDate 2021 12 30.
Proof. reflexivity. Qed.

Example range_of_three : range 1 (3 + 1) = [1; 2; 3].
Proof. reflexivity. Qed.

Example empty_tables_raise :
  lifetime_df [] [] = Raised (KeyError "event_date").
Proof. reflexivity. Qed.

Example two_cohorts_dataset :
  lifetime_df two_cohorts some_returns
  = Returned
      (repeat (mkLifetime jan_2011 feb_2011 1 (Some 31)) 2
       ++ repeat (mkLifetime dec_2010 feb_2011 1 (Some 48)) 2
       ++ [mkLifetime jan_2011 mar_2011 1 (Some 59)]
       ++ repeat (mkLifetime jan_2011 cutoff_date 0 (Some 243)) 2
       ++ repeat (mkLifetime feb_2011 cutoff_date 0 (Some 212)) 2).
Proof. reflexivity. Qed.

Example missing_return_date_is_dropped :
  lifetime_df [lone_unit] [mkReturn jan_2011 Timestamp.NaT 1]
  = Returned [].
Proof. reflexivity. Qed.

Example two_month_forecast :
  forecast_failures_by_cohort wf_unit [mkSales jan_2011 5] 2
  = Returned
      [mkForecast jan_2011 feb_2011
         (5 * Rmax (cumulative_density_at_times wf_unit 30
                    - cumulative_density_at_times wf_unit 0) 0)%R;
       mkForecast jan_2011 mar_2011
         (5 * Rmax (cumulative_density_at_times wf_unit 60
                    - cumulative_density_at_times wf_unit 30) 0)%R].
Proof. reflexivity. Qed.

Example last_timestamp_day :
  Timestamp.to_days (Timestamp.mkDate 2262 4 11) = Timestamp.max_day /\
  Timestamp.to_days (Timestamp.mkDate 1677 9 22) = Timestamp.min_day.
Proof. split; reflexivity. Qed.

Example sum_wraps_around :
  wrap64 (int64_max + 1) = int64_min /\ wrap64 (int64_min - 1) = int64_max /\
  wrap64 42 = 42 /\ wrap64 (-42) = -42.
Proof. repeat split; reflexivity. Qed.

Example wrapped_total :
  total_returned wrapping_returns jan_2011 = int64_max.
Proof. reflexivity. Qed.

Example offset_beyond_the_last_timestamp :
  Timestamp.add_offset jan_2262 3 = Returned (Some (Timestamp.mkDate 2262 4 1))
  /\ Timestamp.add_offset jan_2262 4 = Raised OutOfBoundsDatetime.
Proof. split; reflexivity. Qed.

(** ** Loops that append *)

Section AppendLoops.

Context {A B C : Type}.

Lemma fold_left_append (f : B -> A) (l : list B) (acc : list A) :
  fold_left (fun acc' x => acc' ++ [f x]) l acc = acc ++ map f l.
Proof.
  revert acc; induction l as [|x l IH]; intros acc; simpl.
  - now rewrite app_nil_r.
  - rewrite IH, <- app_assoc. reflexivity.
Qed.

Lemma fold_left_nested (g : C -> B -> A) (inner : C -> list B)
    (l : list C) (acc : list A) :
  fold_left (fun acc' x => fold_left (fun a y => a ++ [g x y]) (inner x) acc')
            l acc
  = acc ++ flat_map (fun x => map (g x) (inner x)) l.
Proof.
  revert acc; induction l as [|x l IH]; intros acc; simpl.
  - now rewrite app_nil_r.
  - rewrite IH, fold_left_append, <- app_assoc. reflexivity.
Qed.

End AppendLoops.

(** ** Ranges *)

Lemma range_length (lo hi : Z) : length (range lo hi) = Z.to_nat (hi - lo).
Proof. unfold range. now rewrite length_map, length_seq. Qed.

Lemma range_In (lo hi m : Z) : In m (range lo hi) <-> lo <= m < hi.
Proof.
  unfold range. rewrite in_map_iff. split.
  - intros (i & <- & Hi). apply in_seq in Hi. lia.
  - intros Hm. exists (Z.to_nat (m - lo)). split; [lia|].
    apply in_seq. lia.
Qed.

Lemma range_NoDup (lo hi : Z) : NoDup (range lo hi).
Proof.
  unfold range. apply Injective_map_NoDup.
  - intros i j Hij. lia.
  - apply seq_NoDup.
Qed.

Lemma range_empty (lo hi : Z) : hi <= lo -> range lo hi = [].
Proof.
  intros H. unfold range. replace (Z.to_nat (hi - lo)) with 0%nat by lia.
  reflexivity.
Qed.

Lemma range_succ (lo hi : Z) :
  lo <= hi -> range lo (hi + 1) = range lo hi ++ [hi].
Proof.
  intros H. unfold range.
  replace (Z.to_nat (hi + 1 - lo)) with (Z.to_nat (hi - lo) + 1)%nat by lia.
  rewrite seq_app, map_app. simpl. do 2 f_equal. lia.
Qed.

Lemma flat_map_ext_In {A B : Type} (f g : A -> list B) (l : list A) :
  (forall x, In x l -> f x = g x) -> flat_map f l = flat_map g l.
Proof.
  induction l as [|x l IH]; intros H; simpl; [reflexivity|].
  rewrite (H x (or_introl eq_refl)), IH; [reflexivity|].
  intros y Hy. apply H. now right.
Qed.

Lemma map_const_range {A : Type} (x : A) (n : Z) :
  map (fun _ => x) (range 0 n) = repeat x (Z.to_nat n).
Proof.
  unfold range. rewrite map_map, Z.sub_0_r.
  generalize 0%nat. induction (Z.to_nat n) as [|k IH]; intros s; simpl.
  - reflexivity.
  - now rewrite IH.
Qed.

(** ** The record lists as comprehensions *)

Lemma failure_records_flat_map (returns_data : list returns_row) :
  failure_records returns_data = flat_map event_failures returns_data.
Proof.
  unfold failure_records.
  rewrite (fold_left_nested (fun row _ => failure_record row)
             (fun row => range 0 (quantity_returned row))).
  simpl. apply flat_map_ext. intros row. apply map_const_range.
Qed.

Lemma censored_records_flat_map (sales_data : list sales_row)
    (returns_data : list returns_row) :
  censored_records sales_data returns_data
  = flat_map (cohort_censored returns_data) sales_data.
Proof.
  unfold censored_records.
  rewrite (fold_left_nested (fun row _ => censored_record row)
             (fun row => range 0 (num_censored returns_data row))).
  simpl. apply flat_map_ext. intros row. apply map_const_range.
Qed.

(** ** Counting records *)

Lemma filter_repeat {A : Type} (p : A -> bool) (x : A) (n : nat) :
  filter p (repeat x n) = if p x then repeat x n else [].
Proof.
  induction n as [|n IH]; simpl.
  - now destruct (p x).
  - rewrite IH. now destruct (p x).
Qed.



Section CohortCounts.

Variable sales_data : list sales_row.
Variable returns_data : list returns_row.
Variable d : Timestamp.t.







End CohortCounts.

(** A row that the date filter keeps is a row of the table. *)
Lemma only_row_In (sales_data : list sales_row) (row : sales_row) :
  filter (fun c => Timestamp.eqb (s_date_in_service c) (s_date_in_service row))
         sales_data = [row] ->
  In row sales_data.
Proof.
  intros H.
  assert (Hin : In row [row]) by now left.
  rewrite <- H in Hin. now apply filter_In in Hin.
Qed.


(** ** 64-bit sums *)


Lemma wrap64_range (z : Z) : int64_min <= wrap64 z <= int64_max.
Proof.
  unfold int64_min, int64_max, wrap64.
  pose proof (Z.mod_pos_bound (z + 9223372036854775808)
                18446744073709551616 ltac:(lia)).
  lia.
Qed.



(** ** Lifetime dataset builder *)


Lemma has_columns_nonempty (df : list record) :
  df <> [] ->
  has_column df "event_date" = true /\ has_column df "in_service" = true.
Proof. destruct df; [congruence | now split]. Qed.

Lemma lifetime_df_nonempty (sales_data : list sales_row)
    (returns_data : list returns_row) :
  lifetime_concat sales_data returns_data <> [] ->
  lifetime_df sales_data returns_data
  = Returned (dropna (map with_duration
                          (lifetime_concat sales_data returns_data))).
Proof.
  intros H. unfold lifetime_df.
  destruct (has_columns_nonempty _ H) as [-> ->]. reflexivity.
Qed.

Lemma lifetime_df_returned (sales_data : list sales_row)
    (returns_data : list returns_row) (rows : list lifetime_row) :
  lifetime_df sales_data returns_data = Returned rows ->
  rows = dropna (map with_duration (lifetime_concat sales_data returns_data)).
Proof.
  unfold lifetime_df.
  destruct (has_column _ "event_date"); [|discriminate].
  destruct (has_column _ "in_service"); [|discriminate].
  now intros [= <-].
Qed.

Lemma In_failure_records (returns_data : list returns_row) (o : record) :
  In o (failure_records returns_data) ->
  exists row, In row returns_data /\ o = failure_record row.
Proof.
  rewrite failure_records_flat_map, in_flat_map.
  intros (row & Hrow & Ho). apply repeat_spec in Ho. eauto.
Qed.

Lemma In_censored_records (sales_data : list sales_row)
    (returns_data : list returns_row) (o : record) :
  In o (censored_records sales_data returns_data) ->
  exists row, In row sales_data /\ o = censored_record row.
Proof.
  rewrite censored_records_flat_map, in_flat_map.
  intros (row & Hrow & Ho). apply repeat_spec in Ho. eauto.
Qed.

Lemma In_dropna (df : list record) (r : lifetime_row) :
  In r (dropna (map with_duration df)) <->
  exists o s e,
    In o df /\ in_service o = Some s /\ event_date o = Some e /\
    r = mkLifetime (Some s) (Some e) (event_observed o)
                   (Some (Timestamp.to_days e - Timestamp.to_days s)).
Proof.
  unfold dropna. rewrite filter_In, in_map_iff. split.
  - intros [(o & <- & Ho) Hkeep]. destruct o as [[s|] [e|] obs];
      cbn in Hkeep; try discriminate.
    exists (mkRecord (Some s) (Some e) obs), s, e. now repeat split.
  - intros (o & s & e & Ho & Hs & He & ->). split.
    + exists o. split; [|exact Ho].
      unfold with_duration. now rewrite Hs, He.
    + reflexivity.
Qed.










(** Two returns of negative quantity whose 64-bit sum wraps around: the
    exact total is negative, the total of line 43 is the largest 64-bit
    integer, and nothing is built. *)
Example wrapped_total_builds_nothing :
  returned_units wrapping_returns (s_date_in_service lone_unit)
  = int64_min - 1 /\
  total_returned wrapping_returns (s_date_in_service lone_unit) = int64_max /\
  lifetime_df [lone_unit] wrapping_returns = Raised (KeyError "event_date").
Proof. repeat split; reflexivity. Qed.



Lemma negative_duration_reaches_fit :
  lifetime_df [late_cohort] []
  = Returned [mkLifetime jan_2012 cutoff_date 0 (Some (-122))] /\
  exists r z, In r [mkLifetime jan_2012 cutoff_date 0 (Some (-122))] /\
              duration r = Some z /\ z < 0.
Proof.
  split; [reflexivity|].
  exists (mkLifetime jan_2012 cutoff_date 0 (Some (-122))), (-122).
  repeat split. now left.
Qed.

(** C6, amended: the rows that reach the fit are exactly the built records
    whose in-service date and event date are both present, each with a
    duration equal to the event date minus the in-service date in whole
    days; a record with a missing date is left out, never given a duration
    of zero. A negative duration is kept, and the rows left out are not
    counted. *)
Theorem fitted_rows_have_dates (sales_data : list sales_row)
    (returns_data : list returns_row) (rows : list lifetime_row) :
  lifetime_df sales_data returns_data = Returned rows ->
  forall r,
    In r rows <->
    exists o s e,
      In o (lifetime_concat sales_data returns_data) /\
      in_service o = Some s /\ event_date o = Some e /\
      r = mkLifetime (Some s) (Some e) (event_observed o)
                     (Some (Timestamp.to_days e - Timestamp.to_days s)).
Proof.
  intros H r. apply lifetime_df_returned in H. subst rows.
  apply In_dropna.
Qed.

Lemma fitted_rows_have_dates_witness :
  In (mkLifetime jan_2011 feb_2011 1 (Some 31))
     (repeat (mkLifetime jan_2011 feb_2011 1 (Some 31)) 3).
Proof.
  apply (fitted_rows_have_dates [lone_unit] excess_returns _ eq_refl).
  exists (mkRecord jan_2011 feb_2011 1),
         (Timestamp.mkDate 2011 1 1), (Timestamp.mkDate 2011 2 1).
  repeat split. now left.
Defined.

(** C7, counterexample: the builder takes no cutoff; asked for the cutoff
    2021-01-01, it still stamps the censored unit with 2011-09-01. *)
Lemma cutoff_not_a_parameter :
  exists rows,
    lifetime_df [lone_unit] [] = Returned rows /\
    ~ honours_cutoff jan_2021 rows.
Proof.
  exists [mkLifetime jan_2011 cutoff_date 0 (Some 243)].
  split; [reflexivity|].
  intros H. specialize (H _ (or_introl eq_refl) eq_refl). discriminate.
Qed.

(** C7, amended: the censoring cutoff is the constant 2011-09-01 written in
    the builder; every censored row of the dataset has that event date, so
    the same tables always give the same dataset. *)
Theorem censored_rows_at_fixed_cutoff (sales_data : list sales_row)
    (returns_data : list returns_row) (rows : list lifetime_row) :
  lifetime_df sales_data returns_data = Returned rows ->
  honours_cutoff (Some (Timestamp.mkDate 2011 9 1)) rows.
Proof.
  intros H r Hr Hobs. apply lifetime_df_returned in H. subst rows.
  apply In_dropna in Hr as (o & s & e & Ho & Hs & He & ->).
  cbn in *. rewrite <- He.
  unfold lifetime_concat in Ho. apply in_app_or in Ho as [Ho|Ho].
  - apply In_failure_records in Ho as (row & _ & ->). discriminate.
  - apply In_censored_records in Ho as (row & _ & ->). reflexivity.
Qed.

Lemma censored_rows_at_fixed_cutoff_witness :
  honours_cutoff (Some (Timestamp.mkDate 2011 9 1))
                 [mkLifetime jan_2011 cutoff_date 0 (Some 243)].
Proof.
  apply (censored_rows_at_fixed_cutoff [lone_unit] []). reflexivity.
Defined.

Lemma dropna_app (a b : list record) :
  dropna (map with_duration (a ++ b))
  = dropna (map with_duration a) ++ dropna (map with_duration b).
Proof. unfold dropna. now rewrite map_app, filter_app. Qed.

Lemma dropna_dated_repeat (o : record) (s e : Timestamp.date) (n : nat) :
  in_service o = Some s -> event_date o = Some e ->
  dropna (map with_duration (repeat o n))
  = repeat (mkLifetime (Some s) (Some e) (event_observed o)
                       (Some (Timestamp.to_days e - Timestamp.to_days s)))
           n.
Proof.
  intros Hs He. rewrite map_repeat. unfold dropna. rewrite filter_repeat.
  unfold with_duration. rewrite Hs, He. reflexivity.
Qed.

(** C10, counterexample: a return of two units whose in-service date is
    missing matches no row of the sales table, and the dataset has no
    observed failure for it: its two records are dropped. *)
Lemma undated_unmatched_return_is_dropped :
  forallb (fun c => negb (Timestamp.eqb (r_date_in_service undated_stray_return)
                                        (s_date_in_service c)))
          two_cohorts = true /\
  quantity_returned undated_stray_return = 2 /\
  lifetime_df two_cohorts [undated_stray_return]
  = Returned (repeat (mkLifetime jan_2011 cutoff_date 0 (Some 243)) 5
              ++ repeat (mkLifetime feb_2011 cutoff_date 0 (Some 212)) 2) /\
  forallb (fun r => l_event_observed r =? 0)
          (repeat (mkLifetime jan_2011 cutoff_date 0 (Some 243)) 5
           ++ repeat (mkLifetime feb_2011 cutoff_date 0 (Some 212)) 2)
  = true.
Proof. repeat split; reflexivity. Qed.

(** C10, amended: a return event with both of its dates present whose
    in-service date is the date of no row of the sales table contributes
    one observed failure per returned unit to the builder's output, and it
    changes no censored record: a cohort's count subtracts the returns
    whose in-service date equals the cohort's, and no other. A return
    without a date is dropped from the output. *)
Theorem unmatched_return_only_adds_failures (sales_data : list sales_row)
    (before after : list returns_row) (ev : returns_row)
    (s e : Timestamp.date) (rows : list lifetime_row) :
  (forall c, In c sales_data ->
     Timestamp.eqb (r_date_in_service ev) (s_date_in_service c) = false) ->
  0 <= quantity_returned ev ->
  r_date_in_service ev = Some s ->
  date_of_return ev = Some e ->
  lifetime_df sales_data (before ++ ev :: after) = Returned rows ->
  rows
  = dropna (map with_duration (failure_records before))
    ++ repeat (mkLifetime (Some s) (Some e) 1
                          (Some (Timestamp.to_days e - Timestamp.to_days s)))
              (Z.to_nat (quantity_returned ev))
    ++ dropna (map with_duration (failure_records after))
    ++ dropna (map with_duration
                   (censored_records sales_data (before ++ after))) /\
  Z.of_nat (length (repeat (mkLifetime (Some s) (Some e) 1
                              (Some (Timestamp.to_days e
                                     - Timestamp.to_days s)))
                           (Z.to_nat (quantity_returned ev))))
  = quantity_returned ev /\
  (forall c, In c sales_data ->
     total_returned (before ++ ev :: after) (s_date_in_service c)
     = total_returned (before ++ after) (s_date_in_service c) /\
     num_censored (before ++ ev :: after) c
     = num_censored (before ++ after) c) /\
  censored_records sales_data (before ++ ev :: after)
  = censored_records sales_data (before ++ after).
Proof.
  intros Hno Hq Hs He Hrows.
  assert (Htot : forall c, In c sales_data ->
            total_returned (before ++ ev :: after) (s_date_in_service c)
            = total_returned (before ++ after) (s_date_in_service c)).
  { intros c Hc. unfold total_returned.
    rewrite !filter_app. simpl. now rewrite (Hno c Hc). }
  assert (Hnum : forall c, In c sales_data ->
            num_censored (before ++ ev :: after) c
            = num_censored (before ++ after) c).
  { intros c Hc. unfold num_censored, total_returned.
    rewrite !filter_app. simpl. now rewrite (Hno c Hc). }
  assert (Hcens : censored_records sales_data (before ++ ev :: after)
                  = censored_records sales_data (before ++ after)).
  { rewrite !censored_records_flat_map. apply flat_map_ext_In.
    intros c Hc. unfold cohort_censored. now rewrite Hnum. }
  split; [|split; [|split]].
  - apply lifetime_df_returned in Hrows. subst rows.
    unfold lifetime_concat. rewrite Hcens.
    rewrite failure_records_flat_map, flat_map_app. cbn [flat_map].
    rewrite <- !failure_records_flat_map.
    rewrite !dropna_app. unfold event_failures.
    rewrite (dropna_dated_repeat (failure_record ev) s e) by assumption.
    cbn [failure_record event_observed]. now rewrite <- !app_assoc.
  - rewrite repeat_length. lia.
  - intros c Hc. split; [now apply Htot | now apply Hnum].
  - exact Hcens.
Qed.

Lemma unmatched_return_only_adds_failures_witness :
  dropna (map with_duration (lifetime_concat two_cohorts some_returns))
  = dropna (map with_duration
                (failure_records [mkReturn jan_2011 feb_2011 2]))
    ++ repeat (mkLifetime dec_2010 feb_2011 1
                 (Some (Timestamp.to_days (Timestamp.mkDate 2011 2 1)
                        - Timestamp.to_days (Timestamp.mkDate 2010 12 15))))
              (Z.to_nat (quantity_returned stray_return))
    ++ dropna (map with_duration
                   (failure_records [mkReturn jan_2011 mar_2011 1]))
    ++ dropna (map with_duration
                   (censored_records two_cohorts
                      ([mkReturn jan_2011 feb_2011 2]
                       ++ [mkReturn jan_2011 mar_2011 1]))).
Proof.
  apply (unmatched_return_only_adds_failures two_cohorts
           [mkReturn jan_2011 feb_2011 2]
           [mkReturn jan_2011 mar_2011 1] stray_return
           (Timestamp.mkDate 2010 12 15) (Timestamp.mkDate 2011 2 1)).
  - intros c [<-|[<-|[]]]; reflexivity.
  - vm_compute; discriminate.
  - reflexivity.
  - reflexivity.
  - reflexivity.
Defined.

(** ** Calendar months *)

Lemma shift_month_index (d : Timestamp.date) (months : Z) :
  let d' := Timestamp.shift_month d months in
  Timestamp.month_index d' = Timestamp.month_index d + months /\
  1 <= Timestamp.month d' <= 12 /\
  Timestamp.day d'
  = Z.min (Timestamp.day d)
          (Timestamp.days_in_month (Timestamp.year d') (Timestamp.month d')).
Proof.
  destruct d as [y mo dd].
  pose proof (Z.div_mod (mo + months) 12 ltac:(lia)) as Hdm.
  pose proof (Z.mod_pos_bound (mo + months) 12 ltac:(lia)) as Hb.
  unfold Timestamp.shift_month, Timestamp.month_index.
  cbv [Timestamp.year Timestamp.month Timestamp.day].
  set (q := (mo + months) / 12) in *.
  set (r := (mo + months) mod 12) in *.
  destruct (Z.eqb_spec r 0) as [E|E]; repeat split; lia.
Qed.

(** ** The forecast as a comprehension *)

Lemma forecast_step_spec (wf : WeibullFitter) (row : sales_row)
    (acc : list cohort_forecast) (m : Z) :
  forecast_step wf (s_date_in_service row) (quantity_in_service row) acc m
  = if month_in_bounds (s_date_in_service row) m
    then Returned (acc ++ [spec_forecast wf row m])
    else Raised OutOfBoundsDatetime.
Proof.
  unfold forecast_step, Timestamp.add_offset, month_in_bounds, spec_forecast.
  destruct (s_date_in_service row) as [d|]; [|reflexivity].
  cbn [Timestamp.add_months].
  destruct (Timestamp.in_bounds (Timestamp.shift_month d m)); reflexivity.
Qed.

Lemma for_each_months (wf : WeibullFitter) (row : sales_row) (ms : list Z)
    (acc : list cohort_forecast) :
  for_each (forecast_step wf (s_date_in_service row)
                             (quantity_in_service row)) ms acc
  = if forallb (month_in_bounds (s_date_in_service row)) ms
    then Returned (acc ++ map (spec_forecast wf row) ms)
    else Raised OutOfBoundsDatetime.
Proof.
  revert acc. induction ms as [|m ms IH]; intros acc; cbn [for_each forallb map].
  - now rewrite app_nil_r.
  - rewrite forecast_step_spec.
    destruct (month_in_bounds (s_date_in_service row) m); cbn [bind andb];
      [|reflexivity].
    rewrite IH, <- app_assoc. reflexivity.
Qed.

Lemma forecast_row_spec (wf : WeibullFitter) (months_ahead : Z)
    (acc : list cohort_forecast) (row : sales_row) :
  forecast_row wf months_ahead acc row
  = if forallb (month_in_bounds (s_date_in_service row))
               (range 1 (months_ahead + 1))
    then Returned (acc ++ cohort_forecasts wf months_ahead row)
    else Raised OutOfBoundsDatetime.
Proof. unfold forecast_row, cohort_forecasts. apply for_each_months. Qed.

Lemma cohort_forecasts_map (wf : WeibullFitter) (months_ahead : Z)
    (row : sales_row) :
  cohort_forecasts wf months_ahead row
  = map (spec_forecast wf row) (range 1 (months_ahead + 1)).
Proof. reflexivity. Qed.

Lemma for_each_rows (wf : WeibullFitter) (months_ahead : Z)
    (sales_df : list sales_row) (acc : list cohort_forecast) :
  for_each (forecast_row wf months_ahead) sales_df acc
  = if months_in_bounds sales_df months_ahead
    then Returned (acc ++ flat_map (cohort_forecasts wf months_ahead) sales_df)
    else Raised OutOfBoundsDatetime.
Proof.
  unfold months_in_bounds. revert acc.
  induction sales_df as [|row l IH]; intros acc;
    cbn [for_each forallb flat_map].
  - now rewrite app_nil_r.
  - rewrite forecast_row_spec.
    destruct (forallb (month_in_bounds (s_date_in_service row))
                      (range 1 (months_ahead + 1))); cbn [bind andb];
      [|reflexivity].
    rewrite IH, <- app_assoc. reflexivity.
Qed.

(** The forecast returns when all its months are timestamps, and raises at
    line 118 otherwise. *)
Lemma forecast_spec (wf : WeibullFitter) (sales_df : list sales_row)
    (months_ahead : Z) :
  forecast_failures_by_cohort wf sales_df months_ahead
  = if months_in_bounds sales_df months_ahead
    then Returned (flat_map (cohort_forecasts wf months_ahead) sales_df)
    else Raised OutOfBoundsDatetime.
Proof.
  unfold forecast_failures_by_cohort. rewrite for_each_rows.
  now destruct (months_in_bounds sales_df months_ahead).
Qed.

Lemma forecast_returned (wf : WeibullFitter) (sales_df : list sales_row)
    (months_ahead : Z) :
  months_in_bounds sales_df months_ahead = true ->
  forecast_failures_by_cohort wf sales_df months_ahead
  = Returned (flat_map (cohort_forecasts wf months_ahead) sales_df).
Proof. intros H. now rewrite forecast_spec, H. Qed.

Lemma forecast_returned_inv (wf : WeibullFitter) (sales_df : list sales_row)
    (months_ahead : Z) (out : list cohort_forecast) :
  forecast_failures_by_cohort wf sales_df months_ahead = Returned out ->
  months_in_bounds sales_df months_ahead = true /\
  out = flat_map (cohort_forecasts wf months_ahead) sales_df.
Proof.
  rewrite forecast_spec.
  destruct (months_in_bounds sales_df months_ahead); [|discriminate].
  now intros [= <-].
Qed.

Lemma forecast_raised_inv (wf : WeibullFitter) (sales_df : list sales_row)
    (months_ahead : Z) (e : exn) :
  forecast_failures_by_cohort wf sales_df months_ahead = Raised e ->
  months_in_bounds sales_df months_ahead = false /\ e = OutOfBoundsDatetime.
Proof.
  rewrite forecast_spec.
  destruct (months_in_bounds sales_df months_ahead); [discriminate|].
  now intros [= <-].
Qed.

Lemma months_in_bounds_spec (sales_df : list sales_row) (months_ahead : Z) :
  months_in_bounds sales_df months_ahead = true <->
  forall row d0 m,
    In row sales_df -> s_date_in_service row = Some d0 ->
    1 <= m <= months_ahead ->
    Timestamp.in_bounds (Timestamp.shift_month d0 m) = true.
Proof.
  unfold months_in_bounds. rewrite forallb_forall. split.
  - intros H row d0 m Hrow Hd Hm. specialize (H row Hrow).
    rewrite forallb_forall in H.
    specialize (H m (proj2 (range_In 1 (months_ahead + 1) m) ltac:(lia))).
    unfold month_in_bounds in H. now rewrite Hd in H.
  - intros H row Hrow. apply forallb_forall. intros m Hm.
    apply range_In in Hm. unfold month_in_bounds.
    destruct (s_date_in_service row) as [d0|] eqn:Hd; [|reflexivity].
    apply (H row d0 m Hrow Hd). lia.
Qed.

Lemma months_in_bounds_short (sales_df : list sales_row) (months_ahead : Z) :
  months_ahead < 1 -> months_in_bounds sales_df months_ahead = true.
Proof.
  intros H. apply months_in_bounds_spec. intros row d0 m _ _ Hm. lia.
Qed.

Lemma months_in_bounds_of_dates (sales_df : list sales_row)
    (months_ahead : Z) :
  months_in_bounds sales_df months_ahead
  = forallb (fun d => forallb (month_in_bounds d)
                              (range 1 (months_ahead + 1)))
            (map s_date_in_service sales_df).
Proof.
  unfold months_in_bounds.
  induction sales_df as [|row l IH]; [reflexivity|].
  cbn [map forallb]. now rewrite IH.
Qed.

(** C1, counterexample: for a cohort installed on 2262-01-01 and a horizon
    of four months, the fourth forecast month is past the last timestamp:
    line 118 raises and the forecast has no record of the cohort. *)
Lemma forecast_raises_past_last_timestamp :
  In last_cohort [last_cohort] /\ 1 <= 4 <= 4 /\
  forecast_failures_by_cohort wf_unit [last_cohort] 4
  = Raised OutOfBoundsDatetime.
Proof.
  split; [now left|]. split; [lia|].
  rewrite forecast_spec. reflexivity.
Qed.

(** C1, amended: the forecast returns exactly when the forecast month of
    every cohort and every month index from 1 to the horizon is a
    timestamp, from 1677-09-22 to 2262-04-11. It is then, cohort after
    cohort and month after month, the record of the specification: the
    expected failures are the units times the clipped difference of the
    distribution function over the bucket from [(m - 1) * 30] to [m * 30]
    days, and the forecast month is the in-service date moved [m] calendar
    months ahead. Every month index occurs once, so a cohort yields as many
    records as the horizon has months. *)
Theorem forecast_one_record_per_cohort_month (wf : WeibullFitter)
    (sales_df : list sales_row) (months_ahead : Z) :
  (forall out,
     forecast_failures_by_cohort wf sales_df months_ahead = Returned out <->
     months_in_bounds sales_df months_ahead = true /\
     out = flat_map
             (fun row =>
                map (fun m =>
                       mkForecast
                         (s_date_in_service row)
                         (Timestamp.add_months (s_date_in_service row) m)
                         (IZR (quantity_in_service row)
                          * Rmax (cumulative_density_at_times wf (m * 30)
                                  - cumulative_density_at_times wf
                                      ((m - 1) * 30))
                                 0)%R)
                    (range 1 (months_ahead + 1)))
             sales_df) /\
  (months_in_bounds sales_df months_ahead = true <->
   forall row d0 m,
     In row sales_df -> s_date_in_service row = Some d0 ->
     1 <= m <= months_ahead ->
     Timestamp.min_day <= Timestamp.to_days (Timestamp.shift_month d0 m)
     <= Timestamp.max_day) /\
  (forall m, In m (range 1 (months_ahead + 1)) <-> 1 <= m <= months_ahead) /\
  NoDup (range 1 (months_ahead + 1)) /\
  (forall row,
     length (cohort_forecasts wf months_ahead row) = Z.to_nat months_ahead) /\
  (forall d0 m,
     let d1 := Timestamp.shift_month d0 m in
     Timestamp.add_months (Some d0) m = Some d1 /\
     Timestamp.month_index d1 = Timestamp.month_index d0 + m /\
     1 <= Timestamp.month d1 <= 12 /\
     Timestamp.day d1
     = Z.min (Timestamp.day d0)
             (Timestamp.days_in_month (Timestamp.year d1)
                                      (Timestamp.month d1))).
Proof.
  split; [|split; [|split; [|split; [|split]]]].
  - intros out. split.
    + intros H. now apply forecast_returned_inv in H.
    + intros [Hb ->]. now apply forecast_returned.
  - rewrite months_in_bounds_spec. unfold Timestamp.in_bounds.
    split; intros H row d0 m Hrow Hd Hm; specialize (H row d0 m Hrow Hd Hm).
    + apply andb_true_iff in H as [H1 H2]. lia.
    + apply andb_true_iff. split; lia.
  - intros m. rewrite range_In. lia.
  - apply range_NoDup.
  - intros row. rewrite cohort_forecasts_map, length_map, range_length.
    f_equal. lia.
  - intros d0 m d1. split; [reflexivity|]. apply shift_month_index.
Qed.

(** ** The fitted distribution function *)

Section Weibull.

Variable wf : WeibullFitter.
Hypothesis rho_pos : (0 < rho_ wf)%R.
Hypothesis lambda_pos : (0 < lambda_ wf)%R.

Lemma cumulative_hazard_nonneg (t : Z) :
  (0 <= cumulative_hazard_at_times wf t)%R.
Proof.
  unfold cumulative_hazard_at_times. destruct (0 <? t).
  - unfold Rpower. left. apply exp_pos.
  - lra.
Qed.

Lemma cumulative_hazard_monotone (t1 t2 : Z) :
  t1 <= t2 ->
  (cumulative_hazard_at_times wf t1 <= cumulative_hazard_at_times wf t2)%R.
Proof.
  intros Hle. unfold cumulative_hazard_at_times.
  destruct (Z.ltb_spec 0 t1) as [H1|H1]; destruct (Z.ltb_spec 0 t2) as [H2|H2];
    try lia.
  - apply Rle_Rpower_l; [lra|].
    assert (0 < IZR t1)%R by now apply IZR_lt.
    assert (IZR t1 <= IZR t2)%R by now apply IZR_le.
    assert (0 < / lambda_ wf)%R by now apply Rinv_0_lt_compat.
    unfold Rdiv. split.
    + now apply Rmult_lt_0_compat.
    + apply Rmult_le_compat_r; lra.
  - unfold Rpower. left. apply exp_pos.
  - lra.
Qed.

Lemma cumulative_density_range (t : Z) :
  (0 <= cumulative_density_at_times wf t <= 1)%R.
Proof.
  unfold cumulative_density_at_times.
  pose proof (cumulative_hazard_nonneg t) as H.
  pose proof (exp_pos (- cumulative_hazard_at_times wf t)) as Hpos.
  assert (exp (- cumulative_hazard_at_times wf t) <= 1)%R.
  { rewrite <- exp_0. destruct H as [H|H].
    - left. apply exp_increasing. lra.
    - rewrite <- H. rewrite Ropp_0. lra. }
  lra.
Qed.

Lemma cumulative_density_monotone (t1 t2 : Z) :
  t1 <= t2 ->
  (cumulative_density_at_times wf t1 <= cumulative_density_at_times wf t2)%R.
Proof.
  intros Hle. unfold cumulative_density_at_times.
  pose proof (cumulative_hazard_monotone t1 t2 Hle) as [H|H].
  - assert (exp (- cumulative_hazard_at_times wf t2)
            < exp (- cumulative_hazard_at_times wf t1))%R
      by (apply exp_increasing; lra).
    lra.
  - rewrite H. lra.
Qed.

(** Probability of the bucket of month [m]. *)
Lemma bucket_probability_range (m : Z) :
  (0 <= Rmax (cumulative_density_at_times wf (m * 30)
              - cumulative_density_at_times wf ((m - 1) * 30)) 0 <= 1)%R.
Proof.
  pose proof (cumulative_density_range (m * 30)).
  pose proof (cumulative_density_range ((m - 1) * 30)).
  split; [apply Rmax_r | apply Rmax_lub; lra].
Qed.

(** The bucket probabilities of the months 1 to [h] add up to the
    distribution function at the horizon. *)
Lemma bucket_probabilities_telescope (h : Z) :
  0 <= h ->
  total (map (fun m => Rmax (cumulative_density_at_times wf (m * 30)
                             - cumulative_density_at_times wf ((m - 1) * 30))
                            0)
             (range 1 (h + 1)))
  = (cumulative_density_at_times wf (h * 30)
     - cumulative_density_at_times wf 0)%R.
Proof.
  revert h. apply natlike_ind.
  - simpl. lra.
  - intros h Hh IH. unfold Z.succ. rewrite range_succ by lia.
    rewrite map_app. unfold total in *. rewrite fold_right_app. simpl.
    assert (Hshift : forall (l : list R) (x : R),
              fold_right Rplus x l = (fold_right Rplus 0 l + x)%R).
    { induction l as [|y l IHl]; intros x; simpl; [lra|].
      rewrite IHl. lra. }
    rewrite Hshift, IH.
    replace (h + 1 - 1) with h by lia.
    pose proof (cumulative_density_monotone (h * 30) ((h + 1) * 30)
                  ltac:(lia)) as Hmono.
    rewrite Rmax_left by lra. lra.
Qed.

End Weibull.

(** ** Cohort forecast engine *)

Lemma total_scale {X : Type} (c : R) (g : X -> R) (l : list X) :
  total (map (fun x => c * g x)%R l) = (c * total (map g l))%R.
Proof.
  induction l as [|x l IH]; simpl; [lra|]. rewrite IH. lra.
Qed.

(** C5: with a fitted shape and scale that are positive, every record of a
    forecast that was produced, for a cohort with a non-negative unit
    count, has expected failures between zero and the unit count, and the
    expected failures of the cohort over all the months of the horizon
    total at most the unit count. Floating point is read as real
    arithmetic. *)
Theorem expected_failures_bounded (wf : WeibullFitter)
    (sales_df : list sales_row) (months_ahead : Z)
    (out : list cohort_forecast) :
  (0 < rho_ wf)%R ->
  (0 < lambda_ wf)%R ->
  forecast_failures_by_cohort wf sales_df months_ahead = Returned out ->
  out = flat_map (cohort_forecasts wf months_ahead) sales_df /\
  forall row,
    In row sales_df ->
    0 <= quantity_in_service row ->
    (forall f, In f (cohort_forecasts wf months_ahead row) ->
       (0 <= expected_failures f <= IZR (quantity_in_service row))%R) /\
    (total (map expected_failures (cohort_forecasts wf months_ahead row))
     <= IZR (quantity_in_service row))%R.
Proof.
  intros Hrho Hlambda Hout.
  split; [now apply forecast_returned_inv in Hout|].
  intros row _ Hu. apply IZR_le in Hu.
  rewrite cohort_forecasts_map. split.
  - intros f Hf. apply in_map_iff in Hf as (m & <- & _). cbn.
    pose proof (bucket_probability_range wf m). nra.
  - rewrite map_map. cbn.
    rewrite (total_scale (IZR (quantity_in_service row))
               (fun m => Rmax (cumulative_density_at_times wf (m * 30)
                               - cumulative_density_at_times wf ((m - 1) * 30))
                              0)).
    destruct (Z_le_gt_dec 0 months_ahead) as [Hh|Hh].
    + rewrite (bucket_probabilities_telescope wf Hrho Hlambda) by exact Hh.
      pose proof (cumulative_density_range wf (months_ahead * 30)).
      pose proof (cumulative_density_range wf 0).
      nra.
    + rewrite range_empty by lia. simpl. lra.
Qed.

Lemma expected_failures_bounded_witness :
  (total (map expected_failures (cohort_forecasts wf_unit 12 lone_unit))
   <= IZR (quantity_in_service lone_unit))%R.
Proof.
  destruct (expected_failures_bounded wf_unit [lone_unit] 12
              (flat_map (cohort_forecasts wf_unit 12) [lone_unit]))
    as [_ H].
  - simpl. lra.
  - simpl. lra.
  - apply forecast_returned. reflexivity.
  - apply (H lone_unit).
    + now left.
    + vm_compute; discriminate.
Defined.

(** C8, counterexample: asked for a horizon of one month for the historical
    table and of two months for the future table, the forecast still gives
    the future cohort one month. *)
Lemma future_horizon_not_independent :
  forecast_df wf_unit [] (Some [lone_unit]) 1
  <> spec_forecast_with_future wf_unit [] [lone_unit] 1 2.
Proof.
  intros H.
  apply (f_equal (fun o => match o with
                           | Returned l => length l
                           | Raised _ => 0%nat
                           end)) in H.
  cbn in H. discriminate.
Qed.

(** C8, amended: when a future cohort table is supplied, the same
    per-cohort procedure runs over it with the same horizon as the
    historical table, and the output, when both forecasts return, is the
    historical forecast followed by the future forecast; without a future
    table the output is the historical forecast. *)
Theorem future_forecast_concatenated (wf : WeibullFitter)
    (sales_data future_sales : list sales_row) (months_ahead : Z) :
  (forall out,
     forecast_df wf sales_data (Some future_sales) months_ahead = Returned out
     <->
     exists hist fut,
       forecast_failures_by_cohort wf sales_data months_ahead = Returned hist
       /\ forecast_failures_by_cohort wf future_sales months_ahead
          = Returned fut
       /\ out = hist ++ fut) /\
  (forall hist,
     forecast_failures_by_cohort wf sales_data months_ahead = Returned hist ->
     hist = flat_map (cohort_forecasts wf months_ahead) sales_data) /\
  (forall fut,
     forecast_failures_by_cohort wf future_sales months_ahead = Returned fut ->
     fut = flat_map (cohort_forecasts wf months_ahead) future_sales) /\
  forecast_df wf sales_data None months_ahead
  = forecast_failures_by_cohort wf sales_data months_ahead.
Proof.
  split; [|split; [|split]].
  - intros out. unfold forecast_df.
    destruct (forecast_failures_by_cohort wf sales_data months_ahead)
      as [hist|e]; cbn [bind].
    + destruct (forecast_failures_by_cohort wf future_sales months_ahead)
        as [fut|e]; cbn [bind].
      * split.
        -- intros [= <-]. now exists hist, fut.
        -- intros (h' & f' & [= <-] & [= <-] & ->). reflexivity.
      * split; [discriminate|]. intros (h' & f' & _ & H & _). discriminate.
    + split; [discriminate|]. intros (h' & f' & H & _). discriminate.
  - intros hist H. now apply forecast_returned_inv in H.
  - intros fut H. now apply forecast_returned_inv in H.
  - unfold forecast_df.
    now destruct (forecast_failures_by_cohort wf sales_data months_ahead).
Qed.

Lemma exponential_density_one_month :
  (0 < Rmax (cumulative_density_at_times wf_unit (1 * 30)
             - cumulative_density_at_times wf_unit ((1 - 1) * 30)) 0)%R.
Proof.
  unfold cumulative_density_at_times, cumulative_hazard_at_times. cbn.
  rewrite Ropp_0, exp_0.
  eapply Rlt_le_trans; [|apply Rmax_l].
  assert (H : (exp (- Rpower (30 / 1) 1) < exp 0)%R).
  { apply exp_increasing.
    unfold Rpower. pose proof (exp_pos (1 * ln (30 / 1))). lra. }
  rewrite exp_0 in H. lra.
Qed.

(** C9, counterexample: a horizon of zero months returns the empty
    forecast, and a cohort of minus five units returns a record with
    negative expected failures; neither raises. *)
Lemma invalid_request_not_raised :
  0 < 1 /\
  forecast_failures_by_cohort wf_unit [lone_unit] 0 = Returned [] /\
  quantity_in_service negative_cohort < 0 /\
  exists f,
    forecast_failures_by_cohort wf_unit [negative_cohort] 1 = Returned [f] /\
    (expected_failures f < 0)%R.
Proof.
  split; [lia|]. split; [reflexivity|]. split; [reflexivity|].
  eexists. split; [reflexivity|]. cbn.
  pose proof exponential_density_one_month as H. cbn in H. lra.
Qed.

(** C9, amended: the forecast operation has no check of the request: a
    horizon of less than one month returns the empty forecast, and the unit
    counts never make it raise, since whether it raises depends on the
    installation dates and the horizon alone; when it returns, a cohort
    with a negative unit count has its records, with the negative units
    times the bucket probability. Its only error is the out-of-range
    timestamp of line 118, with a horizon of at least one month. *)
Theorem invalid_request_is_not_rejected (wf : WeibullFitter)
    (sales_df : list sales_row) (months_ahead : Z) :
  (months_ahead < 1 ->
   forecast_failures_by_cohort wf sales_df months_ahead = Returned []) /\
  (forall sales_df' e,
     map s_date_in_service sales_df' = map s_date_in_service sales_df ->
     (forecast_failures_by_cohort wf sales_df' months_ahead = Raised e <->
      forecast_failures_by_cohort wf sales_df months_ahead = Raised e)) /\
  (forall out,
     forecast_failures_by_cohort wf sales_df months_ahead = Returned out ->
     forall row m,
       In row sales_df -> 1 <= m <= months_ahead ->
       In (mkForecast
             (s_date_in_service row)
             (Timestamp.add_months (s_date_in_service row) m)
             (IZR (quantity_in_service row)
              * Rmax (cumulative_density_at_times wf (m * 30)
                      - cumulative_density_at_times wf ((m - 1) * 30))
                     0)%R)
          out) /\
  (forall e,
     forecast_failures_by_cohort wf sales_df months_ahead = Raised e ->
     e = OutOfBoundsDatetime /\ 1 <= months_ahead).
Proof.
  split; [|split; [|split]].
  - intros Hh. rewrite forecast_returned by now apply months_in_bounds_short.
    f_equal. induction sales_df as [|row l IH]; [reflexivity|].
    cbn [flat_map]. rewrite IH, cohort_forecasts_map, range_empty by lia.
    reflexivity.
  - intros sales_df' e Hdates.
    assert (Hb : months_in_bounds sales_df' months_ahead
                 = months_in_bounds sales_df months_ahead).
    { rewrite !months_in_bounds_of_dates. now rewrite Hdates. }
    rewrite !forecast_spec, Hb.
    destruct (months_in_bounds sales_df months_ahead); [|reflexivity].
    split; discriminate.
  - intros out Hout row m Hrow Hm.
    apply forecast_returned_inv in Hout as [_ ->].
    apply in_flat_map. exists row. split; [exact Hrow|].
    rewrite cohort_forecasts_map.
    apply (in_map (spec_forecast wf row)). apply range_In. lia.
  - intros e He. apply forecast_raised_inv in He as [Hb ->].
    split; [reflexivity|].
    destruct (Z_lt_le_dec months_ahead 1) as [Hh|Hh]; [|exact Hh].
    rewrite months_in_bounds_short in Hb by exact Hh. discriminate.
Qed.

(** * Further properties of the code *)

(** ** Size and failure of the dataset builder *)









(** X4: every record built either reaches the fit or has a missing date:
    the rows of the dataset and the records without an in-service date or
    without an event date add up to the records built. *)
Theorem dropped_rows_are_undated (sales_data : list sales_row)
    (returns_data : list returns_row) (rows : list lifetime_row) :
  lifetime_df sales_data returns_data = Returned rows ->
  (length rows
   + length (filter (fun o => isna (in_service o) || isna (event_date o))
                    (lifetime_concat sales_data returns_data))
   = length (lifetime_concat sales_data returns_data))%nat.
Proof.
  intros H. apply lifetime_df_returned in H. subst rows.
  induction (lifetime_concat sales_data returns_data) as [|o l IH];
    [reflexivity|].
  unfold dropna in *. cbn [map filter length].
  destruct o as [[s|] [e|] obs]; cbn; lia.
Qed.

Lemma dropped_rows_are_undated_witness :
  (length (@nil lifetime_row)
   + length (filter (fun o => isna (in_service o) || isna (event_date o))
                    (lifetime_concat [lone_unit]
                       [mkReturn jan_2011 Timestamp.NaT 1]))
   = length (lifetime_concat [lone_unit]
               [mkReturn jan_2011 Timestamp.NaT 1]))%nat.
Proof.
  apply (dropped_rows_are_undated [lone_unit]
           [mkReturn jan_2011 Timestamp.NaT 1]).
  reflexivity.
Defined.

(** ** Row order and missing dates *)

Lemma sum_Permutation (l l' : list Z) : Permutation l l' -> sum l = sum l'.
Proof. induction 1; simpl; lia. Qed.

Lemma filter_Permutation {A : Type} (p : A -> bool) (l l' : list A) :
  Permutation l l' -> Permutation (filter p l) (filter p l').
Proof.
  induction 1 as [|x l l' _ IH|x y l|l l' l'' _ IH1 _ IH2]; simpl.
  - constructor.
  - destruct (p x); [now constructor | exact IH].
  - destruct (p x), (p y); try apply Permutation_refl. apply perm_swap.
  - now transitivity (filter p l').
Qed.

Lemma flat_map_Permutation {A B : Type} (f : A -> list B) (l l' : list A) :
  Permutation l l' -> Permutation (flat_map f l) (flat_map f l').
Proof.
  induction 1 as [|x l l' _ IH|x y l|l l' l'' _ IH1 _ IH2]; simpl.
  - constructor.
  - now apply Permutation_app_head.
  - rewrite !app_assoc. apply Permutation_app_tail, Permutation_app_comm.
  - now transitivity (flat_map f l').
Qed.

Lemma total_returned_Permutation (returns_data returns_data' : list returns_row)
    (d : Timestamp.t) :
  Permutation returns_data returns_data' ->
  total_returned returns_data d = total_returned returns_data' d.
Proof.
  intros H. unfold total_returned. f_equal.
  apply sum_Permutation, Permutation_map, filter_Permutation, H.
Qed.

Lemma lifetime_concat_Permutation (sales_data sales_data' : list sales_row)
    (returns_data returns_data' : list returns_row) :
  Permutation sales_data sales_data' ->
  Permutation returns_data returns_data' ->
  Permutation (lifetime_concat sales_data returns_data)
              (lifetime_concat sales_data' returns_data').
Proof.
  intros Hs Hr. unfold lifetime_concat.
  rewrite !failure_records_flat_map, !censored_records_flat_map.
  apply Permutation_app.
  - now apply flat_map_Permutation.
  - rewrite (flat_map_ext_In (cohort_censored returns_data)
               (cohort_censored returns_data')).
    + now apply flat_map_Permutation.
    + intros c _. unfold cohort_censored, num_censored.
      now rewrite (total_returned_Permutation _ _ _ Hr).
Qed.

(** X5: the order of the rows of the two tables does not matter: reordering
    the sales table and the returns table gives the same dataset up to the
    order of its rows, and the builder fails on the one input when it fails
    on the other. *)
Theorem dataset_independent_of_row_order
    (sales_data sales_data' : list sales_row)
    (returns_data returns_data' : list returns_row) :
  Permutation sales_data sales_data' ->
  Permutation returns_data returns_data' ->
  match lifetime_df sales_data returns_data,
        lifetime_df sales_data' returns_data' with
  | Returned rows, Returned rows' => Permutation rows rows'
  | Raised e, Raised e' => e = e'
  | _, _ => False
  end.
Proof.
  intros Hs Hr.
  pose proof (lifetime_concat_Permutation _ _ _ _ Hs Hr) as Hp.
  destruct (lifetime_concat sales_data returns_data) eqn:E.
  - pose proof (Permutation_nil Hp) as E'.
    unfold lifetime_df. now rewrite E, E'.
  - rewrite (lifetime_df_nonempty sales_data returns_data)
      by (rewrite E; discriminate).
    rewrite (lifetime_df_nonempty sales_data' returns_data').
    + rewrite E. unfold dropna.
      now apply filter_Permutation, Permutation_map.
    + intros E'. rewrite E' in Hp. apply Permutation_sym in Hp.
      apply Permutation_nil in Hp. discriminate.
Qed.

Lemma dataset_independent_of_row_order_witness :
  match lifetime_df two_cohorts some_returns,
        lifetime_df [mkSales feb_2011 2; mkSales jan_2011 5] some_returns with
  | Returned rows, Returned rows' => Permutation rows rows'
  | Raised e, Raised e' => e = e'
  | _, _ => False
  end.
Proof.
  apply (dataset_independent_of_row_order two_cohorts
           [mkSales feb_2011 2; mkSales jan_2011 5] some_returns some_returns).
  - apply perm_swap.
  - apply Permutation_refl.
Defined.

Lemma dropna_undated_repeat (o : record) (n : nat) :
  isna (in_service o) || isna (event_date o) = true ->
  dropna (map with_duration (repeat o n)) = [].
Proof.
  intros H. rewrite map_repeat. unfold dropna. rewrite filter_repeat.
  destruct o as [[s|] [e|] obs]; cbn in *; try discriminate; reflexivity.
Qed.

(** X6: a cohort without an installation date has no return subtracted
    from its units, and none of its censored records reaches the fit: the
    censored part of the dataset is what it is without that row. *)
Theorem undated_cohort_is_left_out (before after : list sales_row)
    (row : sales_row) (returns_data : list returns_row) :
  s_date_in_service row = Timestamp.NaT ->
  num_censored returns_data row = quantity_in_service row /\
  dropna (map with_duration
              (censored_records (before ++ row :: after) returns_data))
  = dropna (map with_duration
                (censored_records (before ++ after) returns_data)).
Proof.
  intros Hd. split.
  - unfold num_censored, total_returned. rewrite Hd.
    assert (Hnone : filter (fun r => Timestamp.eqb (r_date_in_service r)
                                                   Timestamp.NaT)
                           returns_data = []).
    { induction returns_data as [|r l IH]; [reflexivity|]. simpl.
      destruct (r_date_in_service r); exact IH. }
    rewrite Hnone. change (wrap64 (sum (map quantity_returned []))) with 0.
    lia.
  - rewrite !censored_records_flat_map, !flat_map_app. simpl.
    unfold dropna. rewrite !map_app, !filter_app.
    fold (dropna (map with_duration (cohort_censored returns_data row))).
    unfold cohort_censored at 2.
    rewrite dropna_undated_repeat; [reflexivity|].
    unfold censored_record. cbn. now rewrite Hd.
Qed.

Lemma undated_cohort_is_left_out_witness :
  num_censored some_returns (mkSales Timestamp.NaT 4) = 4 /\
  dropna (map with_duration
              (censored_records ([lone_unit] ++ [mkSales Timestamp.NaT 4])
                                some_returns))
  = dropna (map with_duration
                (censored_records ([lone_unit] ++ []) some_returns)).
Proof.
  apply (undated_cohort_is_left_out [lone_unit] [] (mkSales Timestamp.NaT 4)
           some_returns).
  reflexivity.
Defined.



(** ** Shape of the forecast *)

Lemma forecast_In (wf : WeibullFitter) (sales_df : list sales_row)
    (months_ahead : Z) (out : list cohort_forecast) (f : cohort_forecast) :
  forecast_failures_by_cohort wf sales_df months_ahead = Returned out ->
  In f out ->
  exists row m, In row sales_df /\ 1 <= m <= months_ahead /\
                f = spec_forecast wf row m.
Proof.
  intros Hout Hf. apply forecast_returned_inv in Hout as [_ ->].
  apply in_flat_map in Hf as (row & Hrow & Hf).
  rewrite cohort_forecasts_map in Hf.
  apply in_map_iff in Hf as (m & <- & Hm). apply range_In in Hm.
  exists row, m. repeat split; try assumption; lia.
Qed.

Lemma months_in_bounds_app (a b : list sales_row) (months_ahead : Z) :
  months_in_bounds (a ++ b) months_ahead
  = months_in_bounds a months_ahead && months_in_bounds b months_ahead.
Proof. unfold months_in_bounds. apply forallb_app. Qed.

(** The forecast of lines 126-131 is the forecast of the sales rows
    followed by the future rows, if any. *)
Lemma forecast_df_all (wf : WeibullFitter) (sales_data : list sales_row)
    (future_sales : option (list sales_row)) (months_ahead : Z) :
  forecast_df wf sales_data future_sales months_ahead
  = forecast_failures_by_cohort wf
      (sales_data ++ match future_sales with
                     | Some future => future
                     | None => []
                     end)
      months_ahead.
Proof.
  unfold forecast_df. rewrite !forecast_spec, months_in_bounds_app.
  destruct (months_in_bounds sales_data months_ahead); cbn [bind andb];
    [|reflexivity].
  destruct future_sales as [future|].
  - rewrite forecast_spec.
    destruct (months_in_bounds future months_ahead); cbn [bind];
      [|reflexivity].
    now rewrite flat_map_app.
  - now rewrite app_nil_r.
Qed.

(** X8: the forecast of two tables one after the other is the forecast of
    the first followed by the forecast of the second, so supplying a future
    sales table gives the forecast of the sales table with the future rows
    appended. *)
Theorem future_table_is_appended (wf : WeibullFitter)
    (sales_data future_sales : list sales_row) (months_ahead : Z) :
  forecast_df wf sales_data (Some future_sales) months_ahead
  = forecast_failures_by_cohort wf (sales_data ++ future_sales) months_ahead.
Proof. apply forecast_df_all. Qed.

(** X9: the forecast has one row per cohort and month: its length is the
    number of rows of the sales table and of the future table, if any,
    times the horizon, and zero for a horizon below one month. *)
Theorem forecast_size (wf : WeibullFitter) (sales_data : list sales_row)
    (future_sales : option (list sales_row)) (months_ahead : Z)
    (out : list cohort_forecast) :
  forecast_df wf sales_data future_sales months_ahead = Returned out ->
  Z.of_nat (length out)
  = (Z.of_nat (length sales_data)
     + Z.of_nat (length (match future_sales with
                         | Some future => future
                         | None => []
                         end)))
    * Z.max 0 months_ahead.
Proof.
  rewrite forecast_df_all. intros H.
  apply forecast_returned_inv in H as [_ ->].
  rewrite flat_map_constant_length with (c := Z.to_nat months_ahead).
  - rewrite length_app. lia.
  - intros row _. rewrite cohort_forecasts_map, length_map, range_length.
    f_equal. lia.
Qed.

Lemma forecast_size_witness :
  Z.of_nat (length (flat_map (cohort_forecasts wf_unit 12) two_cohorts))
  = (Z.of_nat (length two_cohorts) + Z.of_nat (length (@nil sales_row)))
    * Z.max 0 12.
Proof.
  apply (forecast_size wf_unit two_cohorts None 12).
  rewrite forecast_df_all, app_nil_r. apply forecast_returned. reflexivity.
Defined.

(** X10: a longer horizon only adds rows: for one cohort, when the forecast
    over one more month returns, the forecast over the shorter horizon
    returns too, and the longer one is the shorter one followed by the
    record of the added month. *)
Theorem horizon_extension (wf : WeibullFitter) (row : sales_row)
    (months_ahead : Z) (longer : list cohort_forecast) :
  0 <= months_ahead ->
  forecast_failures_by_cohort wf [row] (months_ahead + 1) = Returned longer ->
  exists out,
    forecast_failures_by_cohort wf [row] months_ahead = Returned out /\
    longer
    = out ++
      [mkForecast
         (s_date_in_service row)
         (Timestamp.add_months (s_date_in_service row) (months_ahead + 1))
         (IZR (quantity_in_service row)
          * Rmax (cumulative_density_at_times wf ((months_ahead + 1) * 30)
                  - cumulative_density_at_times wf (months_ahead * 30))
                 0)%R].
Proof.
  intros Hh Hlong. apply forecast_returned_inv in Hlong as [Hb ->].
  exists (flat_map (cohort_forecasts wf months_ahead) [row]). split.
  - apply forecast_returned. apply months_in_bounds_spec.
    intros r d0 m Hr Hd Hm.
    apply (proj1 (months_in_bounds_spec [row] (months_ahead + 1)) Hb
             r d0 m Hr Hd).
    lia.
  - cbn [flat_map]. rewrite !app_nil_r.
    rewrite !cohort_forecasts_map, (range_succ 1 (months_ahead + 1)) by lia.
    rewrite map_app. cbn [map]. unfold spec_forecast.
    replace (months_ahead + 1 - 1) with months_ahead by lia. reflexivity.
Qed.

Lemma horizon_extension_witness :
  exists out,
    forecast_failures_by_cohort wf_unit [lone_unit] 0 = Returned out /\
    flat_map (cohort_forecasts wf_unit (0 + 1)) [lone_unit]
    = out ++
      [mkForecast jan_2011 (Timestamp.add_months jan_2011 (0 + 1))
         (IZR 1 * Rmax (cumulative_density_at_times wf_unit ((0 + 1) * 30)
                        - cumulative_density_at_times wf_unit (0 * 30))
                       0)%R].
Proof.
  apply (horizon_extension wf_unit lone_unit 0).
  - lia.
  - apply forecast_returned. reflexivity.
Defined.

Lemma cumulative_density_at_zero (wf : WeibullFitter) :
  cumulative_density_at_times wf 0 = 0%R.
Proof.
  unfold cumulative_density_at_times, cumulative_hazard_at_times. cbn.
  rewrite Ropp_0, exp_0. lra.
Qed.

(** X11: with a positive fitted shape and scale, the expected failures of
    one cohort over the whole horizon add up to its units times the
    distribution function at the end of the horizon, thirty days a month. *)
Theorem cohort_total_is_cdf_at_horizon (wf : WeibullFitter) (row : sales_row)
    (months_ahead : Z) (out : list cohort_forecast) :
  (0 < rho_ wf)%R ->
  (0 < lambda_ wf)%R ->
  0 <= months_ahead ->
  forecast_failures_by_cohort wf [row] months_ahead = Returned out ->
  total (map expected_failures out)
  = (IZR (quantity_in_service row)
     * cumulative_density_at_times wf (months_ahead * 30))%R.
Proof.
  intros Hrho Hlambda Hh Hout.
  apply forecast_returned_inv in Hout as [_ ->]. cbn [flat_map].
  rewrite app_nil_r.
  rewrite cohort_forecasts_map, map_map. cbn.
  rewrite (total_scale (IZR (quantity_in_service row))
             (fun m => Rmax (cumulative_density_at_times wf (m * 30)
                             - cumulative_density_at_times wf ((m - 1) * 30))
                            0)).
  rewrite (bucket_probabilities_telescope wf Hrho Hlambda) by exact Hh.
  rewrite cumulative_density_at_zero. lra.
Qed.

Lemma cohort_total_is_cdf_at_horizon_witness :
  total (map expected_failures (cohort_forecasts wf_unit 12 lone_unit ++ []))
  = (IZR (quantity_in_service lone_unit)
     * cumulative_density_at_times wf_unit (12 * 30))%R.
Proof.
  apply (cohort_total_is_cdf_at_horizon wf_unit lone_unit 12).
  - simpl. lra.
  - simpl. lra.
  - lia.
  - apply forecast_returned. reflexivity.
Defined.

Lemma days_in_month_bounds (y m : Z) :
  28 <= Timestamp.days_in_month y m <= 31.
Proof.
  unfold Timestamp.days_in_month.
  destruct (m =? 2); [destruct (Timestamp.is_leap_year y); lia|].
  destruct ((m =? 4) || (m =? 6) || (m =? 9) || (m =? 11)); lia.
Qed.

(** X12: the forecast month of a record never falls on a later day of the
    month than the installation date, and it keeps the day of the month of
    an installation date that is on the 28th or earlier; the records of a
    cohort without an installation date have no forecast month. *)
Theorem forecast_month_day (wf : WeibullFitter) (sales_df : list sales_row)
    (months_ahead : Z) (out : list cohort_forecast) :
  forecast_failures_by_cohort wf sales_df months_ahead = Returned out ->
  forall f, In f out ->
    match cohort_in_service f with
    | Some d0 =>
        exists d1,
          forecast_month f = Some d1 /\
          Timestamp.day d1 <= Timestamp.day d0 /\
          (Timestamp.day d0 <= 28 -> Timestamp.day d1 = Timestamp.day d0)
    | None => forecast_month f = None
    end.
Proof.
  intros Hout f Hf.
  destruct (forecast_In _ _ _ _ _ Hout Hf) as (row & m & _ & _ & ->).
  unfold spec_forecast. cbn.
  destruct (s_date_in_service row) as [d0|]; cbn; [|reflexivity].
  exists (Timestamp.shift_month d0 m). split; [reflexivity|].
  destruct (shift_month_index d0 m) as (_ & _ & Hday).
  pose proof (days_in_month_bounds
                (Timestamp.year (Timestamp.shift_month d0 m))
                (Timestamp.month (Timestamp.shift_month d0 m))).
  lia.
Qed.

Lemma forecast_month_day_witness :
  exists d1,
    Some (Timestamp.shift_month (Timestamp.mkDate 2011 1 1) 1) = Some d1 /\
    Timestamp.day d1 <= 1 /\ (1 <= 28 -> Timestamp.day d1 = 1).
Proof.
  apply (forecast_month_day wf_unit [lone_unit] 1
           (flat_map (cohort_forecasts wf_unit 1) [lone_unit])
           (forecast_returned wf_unit [lone_unit] 1 eq_refl)
           (spec_forecast wf_unit lone_unit 1)).
  now left.
Defined.

(** ** Calendar aggregation *)

Lemma date_ltb_lt (a b : Timestamp.date) :
  Timestamp.date_ltb a b = true <->
  Timestamp.year a < Timestamp.year b \/
  Timestamp.year a = Timestamp.year b /\
  (Timestamp.month a < Timestamp.month b \/
   Timestamp.month a = Timestamp.month b /\
   Timestamp.day a < Timestamp.day b).
Proof.
  unfold Timestamp.date_ltb.
  rewrite !orb_true_iff, !andb_true_iff, !orb_true_iff, !andb_true_iff.
  rewrite !Z.ltb_lt, !Z.eqb_eq. reflexivity.
Qed.

Lemma date_eqb_eq (a b : Timestamp.date) :
  Timestamp.date_eqb a b = true <-> a = b.
Proof.
  unfold Timestamp.date_eqb. rewrite !andb_true_iff, !Z.eqb_eq.
  destruct a, b; cbn. split.
  - intros [[-> ->] ->]. reflexivity.
  - intros [= -> -> ->]. auto.
Qed.

Lemma date_eqb_refl (a : Timestamp.date) : Timestamp.date_eqb a a = true.
Proof. now apply date_eqb_eq. Qed.

Lemma date_eqb_sym (a b : Timestamp.date) :
  Timestamp.date_eqb a b = Timestamp.date_eqb b a.
Proof.
  unfold Timestamp.date_eqb.
  now rewrite (Z.eqb_sym (Timestamp.year a)), (Z.eqb_sym (Timestamp.month a)),
    (Z.eqb_sym (Timestamp.day a)).
Qed.

Lemma date_ltb_not_eqb (a b : Timestamp.date) :
  Timestamp.date_ltb a b = true -> Timestamp.date_eqb b a = false.
Proof.
  intros H. apply date_ltb_lt in H.
  apply not_true_iff_false. intros E. apply date_eqb_eq in E. subst b. lia.
Qed.

Lemma date_ltb_trans (a b c : Timestamp.date) :
  Timestamp.date_ltb a b = true -> Timestamp.date_ltb b c = true ->
  Timestamp.date_ltb a c = true.
Proof. rewrite !date_ltb_lt. lia. Qed.

Lemma date_ltb_total (a b : Timestamp.date) :
  Timestamp.date_eqb a b = false -> Timestamp.date_ltb a b = false ->
  Timestamp.date_ltb b a = true.
Proof.
  intros E L. apply not_true_iff_false in E, L.
  rewrite date_ltb_lt in *.
  assert (~ (Timestamp.year a = Timestamp.year b /\
             Timestamp.month a = Timestamp.month b /\
             Timestamp.day a = Timestamp.day b)) as Hne.
  { intros (Hy & Hm & Hd). apply E, date_eqb_eq.
    destruct a, b; cbn in *. congruence. }
  lia.
Qed.

Lemma add_to_group_month (k : Timestamp.date) (v : R)
    (groups : list monthly_row) (g : monthly_row) :
  In g (add_to_group k v groups) ->
  m_forecast_month g = k \/
  exists g', In g' groups /\ m_forecast_month g = m_forecast_month g'.
Proof.
  induction groups as [|h rest IH]; simpl.
  - intros [<-|[]]. now left.
  - destruct (Timestamp.date_eqb k (m_forecast_month h)) eqn:E.
    + intros [<-|Hg]; right; [exists h | exists g]; simpl; auto.
    + destruct (Timestamp.date_ltb k (m_forecast_month h)).
      * intros [<-|[<-|Hg]]; [now left | right; exists h | right; exists g];
          simpl; auto.
      * intros [<-|Hg]; [right; exists h; simpl; auto|].
        destruct (IH Hg) as [Hk|(g' & Hg' & Hm)]; [now left|].
        right. exists g'. simpl. auto.
Qed.

Lemma add_to_group_has_month (k : Timestamp.date) (v : R)
    (groups : list monthly_row) :
  In k (map m_forecast_month (add_to_group k v groups)).
Proof.
  induction groups as [|h rest IH]; simpl; [now left|].
  destruct (Timestamp.date_eqb k (m_forecast_month h)) eqn:E.
  - apply date_eqb_eq in E. simpl. now left.
  - destruct (Timestamp.date_ltb k (m_forecast_month h)); simpl; auto.
Qed.

Lemma add_to_group_keeps_months (k k' : Timestamp.date) (v : R)
    (groups : list monthly_row) :
  In k' (map m_forecast_month groups) ->
  In k' (map m_forecast_month (add_to_group k v groups)).
Proof.
  induction groups as [|h rest IH]; simpl; [intros []|].
  destruct (Timestamp.date_eqb k (m_forecast_month h)).
  - simpl. tauto.
  - destruct (Timestamp.date_ltb k (m_forecast_month h)); simpl; tauto.
Qed.

Lemma add_to_group_increasing (k : Timestamp.date) (v : R)
    (groups : list monthly_row) :
  months_increasing groups -> months_increasing (add_to_group k v groups).
Proof.
  unfold months_increasing.
  induction groups as [|h rest IH]; intros Hs; simpl.
  - repeat constructor.
  - apply StronglySorted_inv in Hs as [Hrest Hall].
    destruct (Timestamp.date_eqb k (m_forecast_month h)) eqn:E.
    + constructor; assumption.
    + destruct (Timestamp.date_ltb k (m_forecast_month h)) eqn:L.
      * constructor; [now constructor|].
        constructor; [exact L|].
        rewrite Forall_forall in *. intros g Hg. cbn.
        eapply date_ltb_trans; [exact L | now apply Hall].
      * constructor; [now apply IH|].
        rewrite Forall_forall in *. intros g Hg.
        apply add_to_group_month in Hg as [->|(g' & Hg' & ->)].
        -- now apply date_ltb_total.
        -- now apply Hall.
Qed.

Lemma total_app (l l' : list R) : total (l ++ l') = (total l + total l')%R.
Proof. induction l as [|x l IH]; simpl; [lra | rewrite IH; lra]. Qed.

Lemma add_to_group_value (k k' : Timestamp.date) (v : R)
    (groups : list monthly_row) :
  group_value k (add_to_group k' v groups)
  = (group_value k groups
     + if Timestamp.date_eqb k' k then v else 0)%R.
Proof.
  unfold group_value. induction groups as [|h rest IH]; simpl.
  - destruct (Timestamp.date_eqb k' k); simpl; lra.
  - destruct (Timestamp.date_eqb k' (m_forecast_month h)) eqn:E.
    + apply date_eqb_eq in E. subst k'. simpl.
      destruct (Timestamp.date_eqb (m_forecast_month h) k); simpl; lra.
    + destruct (Timestamp.date_ltb k' (m_forecast_month h)); simpl.
      * destruct (Timestamp.date_eqb k' k),
                 (Timestamp.date_eqb (m_forecast_month h) k); simpl; lra.
      * destruct (Timestamp.date_eqb (m_forecast_month h) k); simpl;
          rewrite IH; lra.
Qed.

Lemma add_to_group_total (k : Timestamp.date) (v : R)
    (groups : list monthly_row) :
  total (map m_expected_failures (add_to_group k v groups))
  = (total (map m_expected_failures groups) + v)%R.
Proof.
  induction groups as [|h rest IH]; simpl; [lra|].
  destruct (Timestamp.date_eqb k (m_forecast_month h)); simpl; [lra|].
  destruct (Timestamp.date_ltb k (m_forecast_month h)); simpl; [lra|].
  rewrite IH. lra.
Qed.

(** The loop of the group-by, from any groups already formed. *)
Section GroupLoop.

Let step (groups : list monthly_row) (f : cohort_forecast) : list monthly_row :=
  match forecast_month f with
  | Some k => add_to_group k (expected_failures f) groups
  | None => groups
  end.

Lemma group_loop_increasing (df : list cohort_forecast)
    (groups : list monthly_row) :
  months_increasing groups -> months_increasing (fold_left step df groups).
Proof.
  revert groups. induction df as [|f df IH]; intros groups Hs; simpl;
    [exact Hs|].
  apply IH. unfold step. destruct (forecast_month f); [|exact Hs].
  now apply add_to_group_increasing.
Qed.

Lemma group_loop_value (k : Timestamp.date) (df : list cohort_forecast)
    (groups : list monthly_row) :
  group_value k (fold_left step df groups)
  = (group_value k groups + month_total k df)%R.
Proof.
  revert groups. induction df as [|f df IH]; intros groups; simpl.
  - unfold month_total. simpl. lra.
  - rewrite IH. unfold step, month_total. simpl.
    destruct (forecast_month f) as [k'|]; simpl; [|lra].
    rewrite add_to_group_value.
    destruct (Timestamp.date_eqb k' k); simpl; lra.
Qed.

Lemma group_loop_total (df : list cohort_forecast)
    (groups : list monthly_row) :
  total (map m_expected_failures (fold_left step df groups))
  = (total (map m_expected_failures groups)
     + total (map expected_failures (dated df)))%R.
Proof.
  revert groups. induction df as [|f df IH]; intros groups; simpl.
  - lra.
  - rewrite IH. unfold step, dated. simpl.
    destruct (forecast_month f) as [k|]; simpl; [|lra].
    rewrite add_to_group_total. lra.
Qed.

Lemma group_loop_months (k : Timestamp.date) (df : list cohort_forecast)
    (groups : list monthly_row) :
  In k (map m_forecast_month (fold_left step df groups)) <->
  In k (map m_forecast_month groups) \/
  exists f, In f df /\ forecast_month f = Some k.
Proof.
  revert groups. induction df as [|f df IH]; intros groups; simpl.
  - split; [now left | intros [H|(f & [] & _)]; exact H].
  - rewrite IH. unfold step. split.
    + intros [H|(f' & Hf' & Hk)].
      * destruct (forecast_month f) as [k'|] eqn:Ef; [|now left].
        apply in_map_iff in H as (g & <- & Hg).
        apply add_to_group_month in Hg as [->|(g' & Hg' & ->)].
        -- right. exists f. auto.
        -- left. now apply in_map.
      * right. exists f'. auto.
    + intros [H|(f' & [<-|Hf'] & Hk)].
      * left. destruct (forecast_month f); [|exact H].
        now apply add_to_group_keeps_months.
      * left. rewrite Hk. apply add_to_group_has_month.
      * right. exists f'. auto.
Qed.

End GroupLoop.

Lemma increasing_group_value (groups : list monthly_row) (g : monthly_row) :
  months_increasing groups -> In g groups ->
  group_value (m_forecast_month g) groups = m_expected_failures g.
Proof.
  unfold months_increasing, group_value.
  induction groups as [|h rest IH]; intros Hs Hg; [destruct Hg|].
  apply StronglySorted_inv in Hs as [Hrest Hall].
  rewrite Forall_forall in Hall. simpl. destruct Hg as [->|Hg].
  - rewrite date_eqb_refl. simpl.
    assert (Hnone : filter (fun g' => Timestamp.date_eqb
                                        (m_forecast_month g')
                                        (m_forecast_month g)) rest = []).
    { clear IH Hrest. induction rest as [|x rest' IHr]; [reflexivity|].
      simpl. rewrite (date_ltb_not_eqb _ _ (Hall x (or_introl eq_refl))).
      apply IHr. intros y Hy. apply Hall. now right. }
    rewrite Hnone. simpl. lra.
  - rewrite date_eqb_sym, (date_ltb_not_eqb _ _ (Hall g Hg)).
    now apply IH.
Qed.

(** X13: the calendar forecast lists the forecast months in chronological
    order, each month once, and its months are exactly the forecast months
    of the records of the forecast. *)
Theorem monthly_forecast_months (forecast_df : list cohort_forecast)
    (rows : list monthly_row) :
  monthly_forecast forecast_df = Returned rows ->
  StronglySorted
    (fun a b => Timestamp.date_ltb (m_forecast_month a) (m_forecast_month b)
                = true)
    rows /\
  forall k,
    In k (map m_forecast_month rows) <->
    exists f, In f forecast_df /\ forecast_month f = Some k.
Proof.
  destruct forecast_df as [|f0 df]; [discriminate|].
  cbn [monthly_forecast]. intros [= <-]. split.
  - apply group_loop_increasing. constructor.
  - intros k. unfold groupby_sum. rewrite group_loop_months. simpl.
    split; [intros [[]|H]; exact H | intros H; now right].
Qed.

Lemma monthly_forecast_months_witness :
  StronglySorted
    (fun a b => Timestamp.date_ltb (m_forecast_month a) (m_forecast_month b)
                = true)
    (groupby_sum [mkForecast jan_2011 mar_2011 2;
                  mkForecast jan_2011 feb_2011 1]).
Proof.
  apply (monthly_forecast_months
           [mkForecast jan_2011 mar_2011 2; mkForecast jan_2011 feb_2011 1]).
  reflexivity.
Defined.

(** X14: the value of a month in the calendar forecast is the sum of the
    expected failures of the records of that forecast month, over all
    cohorts. *)
Theorem monthly_forecast_values (forecast_df : list cohort_forecast)
    (rows : list monthly_row) :
  monthly_forecast forecast_df = Returned rows ->
  forall g, In g rows ->
    m_expected_failures g
    = total (map expected_failures
                 (filter (fun f => Timestamp.eqb (forecast_month f)
                                     (Some (m_forecast_month g)))
                         forecast_df)).
Proof.
  destruct forecast_df as [|f0 df]; [discriminate|].
  cbn [monthly_forecast]. intros [= <-] g Hg.
  rewrite <- (increasing_group_value (groupby_sum (f0 :: df)) g).
  - unfold groupby_sum. rewrite group_loop_value.
    unfold group_value, month_total. simpl. lra.
  - apply group_loop_increasing. constructor.
  - exact Hg.
Qed.

Lemma monthly_forecast_values_witness :
  m_expected_failures (mkMonthly (Timestamp.mkDate 2011 2 1) (1 + 3))
  = total (map expected_failures
               (filter (fun f => Timestamp.eqb (forecast_month f) feb_2011)
                       [mkForecast jan_2011 feb_2011 1;
                        mkForecast dec_2010 feb_2011 3])).
Proof.
  apply (monthly_forecast_values
           [mkForecast jan_2011 feb_2011 1; mkForecast dec_2010 feb_2011 3]
           [mkMonthly (Timestamp.mkDate 2011 2 1) (1 + 3)]).
  - reflexivity.
  - now left.
Defined.

(** X15: the calendar forecast keeps the total: its values add up to the
    expected failures of all the records that have a forecast month; the
    records of cohorts without an installation date are left out. *)
Theorem monthly_forecast_total (forecast_df : list cohort_forecast)
    (rows : list monthly_row) :
  monthly_forecast forecast_df = Returned rows ->
  total (map m_expected_failures rows)
  = total (map expected_failures
               (filter (fun f => negb (isna (forecast_month f)))
                       forecast_df)).
Proof.
  destruct forecast_df as [|f0 df]; [discriminate|].
  cbn [monthly_forecast]. intros [= <-].
  unfold groupby_sum. rewrite group_loop_total. unfold dated. simpl. lra.
Qed.

Lemma monthly_forecast_total_witness :
  total (map m_expected_failures
             (groupby_sum [mkForecast jan_2011 feb_2011 1;
                           mkForecast Timestamp.NaT Timestamp.NaT 3]))
  = total (map expected_failures
               (filter (fun f => negb (isna (forecast_month f)))
                       [mkForecast jan_2011 feb_2011 1;
                        mkForecast Timestamp.NaT Timestamp.NaT 3])).
Proof.
  apply (monthly_forecast_total
           [mkForecast jan_2011 feb_2011 1;
            mkForecast Timestamp.NaT Timestamp.NaT 3]).
  reflexivity.
Defined.

Lemma cohort_forecasts_nil (wf : WeibullFitter) (months_ahead : Z)
    (l : list sales_row) :
  flat_map (cohort_forecasts wf months_ahead) l = [] <->
  months_ahead < 1 \/ l = [].
Proof.
  split.
  - intros H. destruct l as [|row l]; [now right|]. left.
    simpl in H. apply app_eq_nil in H as [H _].
    apply (f_equal (@length _)) in H.
    rewrite cohort_forecasts_map, length_map, range_length in H.
    simpl in H. lia.
  - intros [Hh| ->]; [|reflexivity].
    induction l as [|row l IH]; [reflexivity|]. simpl.
    rewrite IH, cohort_forecasts_map, range_empty by lia. reflexivity.
Qed.

(** X16: the calendar aggregation fails exactly when the forecast has no
    row, that is when the horizon is below one month or the sales table is
    empty and no future row was supplied; it then raises the key error of
    the missing [forecast_month] column. Any other error of lines 126-144
    is the error of the forecast itself. *)
Theorem calendar_forecast_raises_iff (wf : WeibullFitter)
    (sales_data : list sales_row) (future_sales : option (list sales_row))
    (months_ahead : Z) :
  (calendar_forecast wf sales_data future_sales months_ahead
   = Raised (KeyError "forecast_month") <->
   months_ahead < 1 \/
   sales_data = [] /\ (future_sales = None \/ future_sales = Some [])) /\
  (forall e,
     calendar_forecast wf sales_data future_sales months_ahead = Raised e ->
     e = KeyError "forecast_month" \/
     forecast_df wf sales_data future_sales months_ahead = Raised e).
Proof.
  set (all := sales_data ++ match future_sales with
                            | Some future => future
                            | None => []
                            end).
  assert (Hall : all = [] <->
                 sales_data = [] /\
                 (future_sales = None \/ future_sales = Some [])).
  { unfold all. destruct future_sales as [future|]; split.
    - intros H. apply app_eq_nil in H as [-> ->]. auto.
    - intros [-> [H|[= ->]]]; [discriminate | reflexivity].
    - rewrite app_nil_r. intros ->. auto.
    - intros [-> _]. reflexivity. }
  unfold calendar_forecast. rewrite forecast_df_all. fold all.
  rewrite forecast_spec, <- Hall.
  destruct (months_in_bounds all months_ahead) eqn:Hb; cbn [bind].
  - rewrite <- (cohort_forecasts_nil wf).
    destruct (flat_map (cohort_forecasts wf months_ahead) all); cbn.
    + split; [now split|]. intros e [= <-]. now left.
    + split; [|discriminate]. split; discriminate.
  - split.
    + split; [discriminate|].
      intros [Hh| ->].
      * rewrite months_in_bounds_short in Hb by exact Hh. discriminate.
      * discriminate.
    + intros e [= <-]. now right.
Qed.

Lemma date_ltb_asym (a b : Timestamp.date) :
  Timestamp.date_ltb a b = true -> Timestamp.date_ltb b a = false.
Proof.
  intros H. apply not_true_iff_false. intros H'.
  rewrite date_ltb_lt in *. lia.
Qed.

Lemma add_to_group_last (k : Timestamp.date) (v : R)
    (groups : list monthly_row) :
  Forall (fun g => Timestamp.date_ltb (m_forecast_month g) k = true) groups ->
  add_to_group k v groups = groups ++ [mkMonthly k v].
Proof.
  induction 1 as [|g rest Hg _ IH]; simpl; [reflexivity|].
  rewrite (date_ltb_not_eqb _ _ Hg), (date_ltb_asym _ _ Hg), IH.
  reflexivity.
Qed.

Lemma shift_month_increasing (d : Timestamp.date) (m m' : Z) :
  m < m' ->
  Timestamp.date_ltb (Timestamp.shift_month d m) (Timestamp.shift_month d m')
  = true.
Proof.
  intros Hlt. apply date_ltb_lt.
  destruct (shift_month_index d m) as (Hi & Hb & _).
  destruct (shift_month_index d m') as (Hi' & Hb' & _).
  unfold Timestamp.month_index in *. lia.
Qed.

Lemma groupby_single_cohort (wf : WeibullFitter) (d0 : Timestamp.date)
    (units months_ahead : Z) :
  0 <= months_ahead ->
  groupby_sum (map (spec_forecast wf (mkSales (Some d0) units))
                   (range 1 (months_ahead + 1)))
  = map (fun m =>
           mkMonthly (Timestamp.shift_month d0 m)
                     (expected_failures
                        (spec_forecast wf (mkSales (Some d0) units) m)))
        (range 1 (months_ahead + 1)).
Proof.
  revert months_ahead. apply natlike_ind; [reflexivity|].
  intros h Hh IH. unfold Z.succ. rewrite (range_succ 1 (h + 1)) by lia.
  unfold groupby_sum in *. rewrite !map_app, fold_left_app, IH.
  cbn [map fold_left spec_forecast forecast_month s_date_in_service
       Timestamp.add_months].
  apply add_to_group_last.
  apply Forall_forall. intros g Hg.
  apply in_map_iff in Hg as (m & <- & Hm). apply range_In in Hm.
  cbn [m_forecast_month]. apply shift_month_increasing. lia.
Qed.

(** X17: for a single cohort with an installation date, when every
    forecast month of the horizon is a timestamp, the calendar forecast has
    one row for each month of the horizon, in order: the installation date
    moved ahead by that many months, with the expected failures of the
    cohort in that month. *)
Theorem single_cohort_calendar (wf : WeibullFitter) (d0 : Timestamp.date)
    (units months_ahead : Z) :
  1 <= months_ahead ->
  (forall m, 1 <= m <= months_ahead ->
     Timestamp.in_bounds (Timestamp.shift_month d0 m) = true) ->
  calendar_forecast wf [mkSales (Some d0) units] None months_ahead
  = Returned
      (map (fun m =>
              mkMonthly
                (Timestamp.shift_month d0 m)
                (IZR units
                 * Rmax (cumulative_density_at_times wf (m * 30)
                         - cumulative_density_at_times wf ((m - 1) * 30))
                        0)%R)
           (range 1 (months_ahead + 1))).
Proof.
  intros Hh Hb. unfold calendar_forecast.
  rewrite forecast_df_all, app_nil_r.
  rewrite forecast_returned.
  2:{ apply months_in_bounds_spec. intros row d m [<-|[]] [= <-] Hm.
      now apply Hb. }
  cbn [bind flat_map]. rewrite app_nil_r.
  rewrite cohort_forecasts_map.
  transitivity
    (Returned (groupby_sum (map (spec_forecast wf (mkSales (Some d0) units))
                                (range 1 (months_ahead + 1))))).
  - destruct (map (spec_forecast wf (mkSales (Some d0) units))
                  (range 1 (months_ahead + 1))) eqn:E; [|reflexivity].
    apply (f_equal (@length _)) in E.
    rewrite length_map, range_length in E. simpl in E. lia.
  - rewrite groupby_single_cohort by lia. reflexivity.
Qed.

Lemma single_cohort_calendar_witness :
  calendar_forecast wf_unit [mkSales (Some (Timestamp.mkDate 2011 1 31)) 5]
                    None 2
  = Returned
      (map (fun m =>
              mkMonthly
                (Timestamp.shift_month (Timestamp.mkDate 2011 1 31) m)
                (5 * Rmax (cumulative_density_at_times wf_unit (m * 30)
                           - cumulative_density_at_times wf_unit
                               ((m - 1) * 30)) 0)%R)
           (range 1 (2 + 1))).
Proof.
  apply (single_cohort_calendar wf_unit (Timestamp.mkDate 2011 1 31) 5 2).
  - lia.
  - intros m Hm. assert (Hc : m = 1 \/ m = 2) by lia.
    destruct Hc as [->| ->]; reflexivity.
Defined.

(** ** Report *)

Lemma map_seq_shift (lo : Z) (a n : nat) :
  map (fun i => lo + Z.of_nat i) (seq a n)
  = map (fun i => lo + Z.of_nat a + Z.of_nat i) (seq 0 n).
Proof.
  revert lo a. induction n as [|n IH]; intros lo a; simpl; [reflexivity|].
  f_equal; [lia|].
  rewrite (IH lo (S a)), (IH (lo + Z.of_nat a) 1%nat).
  apply map_ext. intros i. lia.
Qed.

Lemma range_split (lo mid hi : Z) :
  lo <= mid <= hi -> range lo hi = range lo mid ++ range mid hi.
Proof.
  intros H. unfold range.
  replace (Z.to_nat (hi - lo))
    with (Z.to_nat (mid - lo) + Z.to_nat (hi - mid))%nat by lia.
  rewrite seq_app, map_app. f_equal. simpl.
  rewrite map_seq_shift. apply map_ext. intros i. lia.
Qed.

(** X18: the report prints at most the first ten rows of the forecast, so
    with a horizon of ten months or more it shows the first ten months of
    the first cohort of the sales table and nothing of any other cohort. *)
Theorem report_shows_first_cohort (wf : WeibullFitter) (row : sales_row)
    (others : list sales_row) (future_sales : option (list sales_row))
    (months_ahead : Z) (out : list cohort_forecast) :
  10 <= months_ahead ->
  forecast_df wf (row :: others) future_sales months_ahead = Returned out ->
  report_rows out
  = map (fun m =>
           mkForecast
             (s_date_in_service row)
             (Timestamp.add_months (s_date_in_service row) m)
             (IZR (quantity_in_service row)
              * Rmax (cumulative_density_at_times wf (m * 30)
                      - cumulative_density_at_times wf ((m - 1) * 30))
                     0)%R)
        (range 1 11).
Proof.
  intros Hh Hout.
  assert (Hshape : exists rest,
            out = map (spec_forecast wf row) (range 1 11) ++ rest).
  { rewrite forecast_df_all in Hout.
    apply forecast_returned_inv in Hout as [_ ->].
    cbn [app flat_map].
    rewrite cohort_forecasts_map,
      (range_split 1 11 (months_ahead + 1)) by lia.
    rewrite map_app, <- !app_assoc. eexists. reflexivity. }
  destruct Hshape as [rest ->]. unfold report_rows.
  rewrite firstn_app.
  replace (length (map (spec_forecast wf row) (range 1 11))) with 10%nat
    by (now rewrite length_map, range_length).
  rewrite firstn_all2 by (rewrite length_map, range_length; simpl; lia).
  cbn [Nat.sub firstn]. now rewrite app_nil_r.
Qed.

Lemma report_shows_first_cohort_witness :
  report_rows (flat_map (cohort_forecasts wf_unit 12) two_cohorts)
  = map (fun m =>
           mkForecast jan_2011 (Timestamp.add_months jan_2011 m)
             (5 * Rmax (cumulative_density_at_times wf_unit (m * 30)
                        - cumulative_density_at_times wf_unit ((m - 1) * 30))
                       0)%R)
        (range 1 11).
Proof.
  apply (report_shows_first_cohort wf_unit (mkSales jan_2011 5)
           [mkSales feb_2011 2] None 12).
  - lia.
  - rewrite forecast_df_all, app_nil_r. apply forecast_returned. reflexivity.
Defined.
